(** * LeadLens: a shallow embedding of the lead-generation client

    The development follows the three source units of the application:

    - [services/geminiService.ts]: prompt assembly and the three request
      functions ([Service]);
    - [App.tsx]: the form state, the submit handlers, voice dictation and
      the JSX bindings that guard them ([App]);
    - [components/AnalysisResult.tsx]: the view selection and the CSV
      export ([AnalysisResult]).

    JavaScript strings are sequences of UTF-16 code units; they are
    modelled as [list N].  [null] and [undefined] are modelled by [None]. *)

From Stdlib Require Import NArith Strings.String Strings.Ascii.
From stdpp Require Import base option list.

Local Open Scope N_scope.

(** ** JavaScript strings *)

Module JS.

Abbreviation jstring := (list N).

(** An ASCII literal of the source, as code units. *)
Definition lit (s : string) : jstring :=
  map N_of_ascii (list_ascii_of_string s).

Definition LF : jstring := [10].
Definition DQ : jstring := [34].
Definition SP : N := 32.

(** ECMAScript [WhiteSpace] and [LineTerminator] code units, the ones
    [String.prototype.trim] strips. *)
Definition is_white (c : N) : bool :=
  (c =? 9) || (c =? 10) || (c =? 11) || (c =? 12) || (c =? 13) || (c =? 32)
  || (c =? 160) || (c =? 5760)
  || ((8192 <=? c) && (c <=? 8202))
  || (c =? 8232) || (c =? 8233) || (c =? 8239) || (c =? 8287)
  || (c =? 12288) || (c =? 65279).

Fixpoint trimStart (s : jstring) : jstring :=
  match s with
  | c :: s' => if is_white c then trimStart s' else s
  | [] => []
  end.

Definition trimEnd (s : jstring) : jstring := rev (trimStart (rev s)).

Definition trim (s : jstring) : jstring := trimEnd (trimStart s).

(** Truthiness of a [string | null | undefined] value: the empty string,
    [null] and [undefined] are falsy. *)
Definition truthy (v : option jstring) : bool :=
  match v with
  | Some (_ :: _) => true
  | _ => false
  end.

(** [!s] for a string [s]. *)
Definition is_empty (s : jstring) : bool :=
  match s with [] => true | _ => false end.

(** [v || d] where [v : string | undefined] and [d] is a string. *)
Definition or_else (v : option jstring) (d : jstring) : jstring :=
  match v with
  | Some (c :: s) => c :: s
  | _ => d
  end.

(** [s.endsWith(' ')] *)
Definition endsWith_space (s : jstring) : bool :=
  match last s with
  | Some c => c =? SP
  | None => false
  end.



(** The global replacement of every double quote (code unit 34) by two
    double quotes, as the CSV export applies it to its quoted fields. *)
Definition escape_quotes (s : jstring) : jstring :=
  flat_map (fun c => if c =? 34 then [34; 34] else [c]) s.

(** [s.split(',')]: the segments between commas. *)
Fixpoint split_comma_aux (cur : jstring) (s : jstring) : list jstring :=
  match s with
  | [] => [rev cur]
  | c :: s' =>
      if c =? 44 then rev cur :: split_comma_aux [] s'
      else split_comma_aux (c :: cur) s'
  end.

Definition split_comma (s : jstring) : list jstring := split_comma_aux [] s.

(** [parts.join(',')]; an [undefined] element prints as the empty string. *)
Fixpoint join_comma (parts : list (option jstring)) : jstring :=
  match parts with
  | [] => []
  | [p] => default [] p
  | p :: rest => default [] p ++ [44] ++ join_comma rest
  end.

(** Values that can be thrown or used to reject a promise. *)
Inductive NonErrorValue :=
  | ProgressEventValue
  | StringValue (s : jstring)
  | UndefinedValue.

Inductive Thrown :=
  | ErrorObject (message : jstring)      (* [e instanceof Error] holds *)
  | NonError (v : NonErrorValue).

(** The outcome of an awaited computation that settles. *)
Inductive Result (A : Type) :=
  | Ok (a : A)
  | Throw (e : Thrown).
Global Arguments Ok {A} a.
Global Arguments Throw {A} e.

Definition bind {A B} (r : Result A) (k : A -> Result B) : Result B :=
  match r with
  | Ok a => k a
  | Throw e => Throw e
  end.

(** [try { body } catch (error) { handler }] *)
Definition try_catch {A} (body : Result A) (handler : Thrown -> Result A)
  : Result A :=
  match body with
  | Ok a => Ok a
  | Throw e => handler e
  end.

End JS.

Import JS.

(** [const x = await r; k] *)
Notation "'await' x ':=' r 'in' k" := (JS.bind r (fun x => k))
  (at level 10, x name, r at level 100, k at level 200).

(** ** types.ts *)

Record File := { file_name : jstring; file_type : jstring }.

Record ImageFile := { file : File; previewUrl : jstring }.

Inductive AppMode := IMAGE | SEARCH | SELF_AUDIT.

#[global] Instance AppMode_eq_dec : EqDecision AppMode.
Proof. solve_decision. Defined.

Inductive PitchTone := TONE_STANDARD | PAIN_FOCUSED.

Inductive PitchLength := SHORT | LENGTH_STANDARD.

Inductive OutputLanguage :=
  | English | Spanish | French | Portuguese_Portugal | Portuguese_Brazil
  | German | Italian | Dutch | Chinese | Japanese.

(** Citation data attached to a vendor response.  The fields read by the
    application are optional on the wire. *)
Record WebChunk := { web_uri : option jstring; web_title : option jstring }.

Record MapsChunk := {
  title : option jstring;
  address : option jstring;
  googleMapsUriString : option jstring
}.

Record GroundingChunk := { web : option WebChunk; maps : option MapsChunk }.

Record GroundingMetadata := { groundingChunks : option (list GroundingChunk) }.

Record AnalysisState := {
  isLoading : bool;
  result : option jstring;
  groundingMetadata : option GroundingMetadata;
  error : option jstring
}.

(** ** services/geminiService.ts *)

Module Service.

(** The part of the vendor response the application reads: the [text]
    getter and [candidates?.[0]?.groundingMetadata]. *)
Record Candidate := { candidate_groundingMetadata : option GroundingMetadata }.

Record GenerateContentResponse := {
  response_text : option jstring;
  candidates : option (list Candidate)
}.

Record InlineData := { data : option jstring; mimeType : jstring }.

(** The prompt sent to the vendor is a fixed template literal with
    interpolated values; it is represented by the template it comes from
    and the values interpolated into it. *)
Inductive Prompt :=
  | ImagePrompt (businessName : jstring) (language : OutputLanguage)
                (pitchInstructions : jstring)
  | SearchPrompt (query : jstring) (language : OutputLanguage)
                 (pitchInstructions : jstring)
  | AuditPrompt (description : jstring) (language : OutputLanguage).

Inductive Model := gemini_3_pro_preview | gemini_2_5_flash.

Record GenerateContentParameters := {
  model : Model;
  imagePart : option InlineData;
  prompt : Prompt;
  googleMapsTool : bool;
  thinkingBudget : option N;
  maxOutputTokens : N
}.

(** [ai.models.generateContent]: the hosted endpoint, which answers a
    request with a response or throws. *)
Definition GenAI := GenerateContentParameters -> Result GenerateContentResponse.

(** What the [FileReader] does with a file: it loads it into a data URL
    or reports an error event. *)
Inductive ReadOutcome :=
  | Loaded (dataUrl : jstring)
  | ReadFailed.

Definition FileReader := File -> ReadOutcome.

Record AnalysisResponse := {
  text : jstring;
  response_groundingMetadata : option GroundingMetadata
}.

Definition fileToGenerativePart (reader : FileReader) (f : File)
  : Result InlineData :=
  match reader f with
  | Loaded base64String =>
      let base64Data := split_comma base64String !! 1%nat in
      Ok {| data := base64Data; mimeType := file_type f |}
  | ReadFailed => Throw (NonError ProgressEventValue)
  end.

Definition length_short : jstring :=
  LF ++ lit "- **Length:** Keep the pitch very concise (under 100 words). Focus on punchy sentences.".

Definition length_standard : jstring :=
  LF ++ lit "- **Length:** Standard email length (150-200 words).".

Definition strategy_pain_focused : jstring :=
  LF ++ lit "    " ++ LF ++ lit "**Strategy: High-Impact / Pain-Focused**" ++
  LF ++ lit "    - **Immediate Focus on Pain/Cost:** Start by directly appealing to the prospect's lost time, lost money, or lost customers. Do not start with "
     ++ DQ ++ lit "I hope you are well" ++ DQ
     ++ lit " or generic intros. Jump straight to the problem." ++
  LF ++ lit "    - **Extreme Personalization (Proof at a Glance):** Use a specific detail observed in the analysis (e.g., a specific product on the shelf, the specific design of the menu, the awards on the wall) as immediate proof this isn't spam." ++
  LF ++ lit "    - **Low-Risk CTA (Micro-Commitment):** Do NOT ask for a "
     ++ DQ ++ lit "10-minute chat" ++ DQ
     ++ lit ". Instead, offer immediate exit value (e.g., "
     ++ DQ ++ lit "Can I send you a 30-second video showing how N2 Digital fixes this?" ++ DQ
     ++ lit " or "
     ++ DQ ++ lit "Reply 'yes' and I'll send the mockup" ++ DQ
     ++ lit ")." ++
  LF ++ lit "    ".

Definition strategy_standard : jstring :=
  LF ++ lit "    " ++ LF ++ lit "**Strategy: Standard Professional**" ++
  LF ++ lit "    - **Tone:** Friendly, professional, and helpful." ++
  LF ++ lit "    - **Approach:** Highlight the benefits of modernization with N2 Digital." ++
  LF ++ lit "    - **CTA:** Suggest a brief consultation or call with the N2 Digital team." ++
  LF ++ lit "    ".

Definition getPitchInstructions (tone : PitchTone) (length : PitchLength)
  : jstring :=
  let instructions := [] in
  (* Length Instructions *)
  let instructions :=
    match length with
    | SHORT => instructions ++ length_short
    | _ => instructions ++ length_standard
    end in
  (* Tone/Strategy Instructions *)
  let instructions :=
    match tone with
    | PAIN_FOCUSED => instructions ++ strategy_pain_focused
    | _ => instructions ++ strategy_standard
    end in
  instructions.

Definition no_analysis : jstring :=
  lit "No analysis generated. Please try again.".

Definition no_leads : jstring :=
  lit "No leads found. Please try a different query.".

(** [new Error(prefix + error.message)] when the caught value is an
    [Error], [new Error(fallback)] otherwise. *)
Definition rethrow {A} (prefix fallback : jstring) (error : Thrown)
  : Result A :=
  match error with
  | ErrorObject message => Throw (ErrorObject (prefix ++ message))
  | NonError _ => Throw (ErrorObject fallback)
  end.

(** The argument of each [ai.models.generateContent] call. *)
Definition image_request (imagePart : InlineData) (businessName : jstring)
    (tone : PitchTone) (length : PitchLength) (language : OutputLanguage)
  : GenerateContentParameters :=
  let pitchInstructions := getPitchInstructions tone length in
  {| model := gemini_3_pro_preview;
     imagePart := Some imagePart;
     prompt := ImagePrompt businessName language pitchInstructions;
     googleMapsTool := false;
     thinkingBudget := None;
     maxOutputTokens := 700 |}.

Definition search_request (query : jstring)
    (tone : PitchTone) (length : PitchLength) (language : OutputLanguage)
  : GenerateContentParameters :=
  let pitchInstructions := getPitchInstructions tone length in
  {| model := gemini_2_5_flash;
     imagePart := None;
     prompt := SearchPrompt query language pitchInstructions;
     googleMapsTool := true;
     thinkingBudget := None;
     maxOutputTokens := 700 |}.

Definition audit_request (description : jstring) (language : OutputLanguage)
  : GenerateContentParameters :=
  {| model := gemini_3_pro_preview;
     imagePart := None;
     prompt := AuditPrompt description language;
     googleMapsTool := false;
     thinkingBudget := Some 1024;
     maxOutputTokens := 1724 |}.

(** The [try] block of each request function, then the function with its
    [catch] clause. *)
Definition analyzeBusinessImage_try (reader : FileReader) (ai : GenAI)
    (imageFile : File) (businessName : jstring)
    (tone : PitchTone) (length : PitchLength) (language : OutputLanguage)
  : Result AnalysisResponse :=
  await imagePart := fileToGenerativePart reader imageFile in
  await response :=
    ai (image_request imagePart businessName tone length language) in
  Ok {| text := or_else (response_text response) no_analysis;
        response_groundingMetadata := None |}.

Definition analyzeBusinessImage (reader : FileReader) (ai : GenAI)
    (imageFile : File) (businessName : jstring)
    (tone : PitchTone) (length : PitchLength) (language : OutputLanguage)
  : Result AnalysisResponse :=
  try_catch
    (analyzeBusinessImage_try reader ai imageFile businessName
       tone length language)
    (rethrow (lit "Analysis failed: ")
             (lit "An unexpected error occurred during analysis.")).

Definition searchBusinessLeads_try (ai : GenAI) (query : jstring)
    (tone : PitchTone) (length : PitchLength) (language : OutputLanguage)
  : Result AnalysisResponse :=
  await response := ai (search_request query tone length language) in
  Ok {| text := or_else (response_text response) no_leads;
        (* [response.candidates?.[0]?.groundingMetadata || null]: an
           object is truthy, so only an absent link of the chain
           yields [null] *)
        response_groundingMetadata :=
          (cs ← candidates response;
           c ← cs !! 0%nat;
           candidate_groundingMetadata c) |}.

Definition searchBusinessLeads (ai : GenAI) (query : jstring)
    (tone : PitchTone) (length : PitchLength) (language : OutputLanguage)
  : Result AnalysisResponse :=
  try_catch
    (searchBusinessLeads_try ai query tone length language)
    (rethrow (lit "Search failed: ")
             (lit "An unexpected error occurred during search.")).

Definition analyzeBusinessGap_try (ai : GenAI) (description : jstring)
    (language : OutputLanguage)
  : Result AnalysisResponse :=
  await response := ai (audit_request description language) in
  Ok {| text := or_else (response_text response) no_analysis;
        response_groundingMetadata := None |}.

Definition analyzeBusinessGap (ai : GenAI) (description : jstring)
    (language : OutputLanguage)
  : Result AnalysisResponse :=
  try_catch
    (analyzeBusinessGap_try ai description language)
    (rethrow (lit "Audit failed: ")
             (lit "An unexpected error occurred during audit.")).

End Service.

(** ** App.tsx *)

Module App.

Record State := {
  mode : AppMode;
  selectedImage : option ImageFile;
  businessName : jstring;
  searchQuery : jstring;
  auditDescription : jstring;
  isListening : bool;
  pitchTone : PitchTone;
  pitchLength : PitchLength;
  language : OutputLanguage;
  analysisState : AnalysisState
}.

(** The [useState] initial values. *)
Definition initial : State := {|
  mode := IMAGE;
  selectedImage := None;
  businessName := [];
  searchQuery := [];
  auditDescription := [];
  isListening := false;
  pitchTone := TONE_STANDARD;
  pitchLength := LENGTH_STANDARD;
  language := English;
  analysisState := {| isLoading := false; result := None;
                      groundingMetadata := None; error := None |}
|}.

(** State setters.  The functional form receives the current value. *)
Definition setAnalysisState (f : AnalysisState -> AnalysisState) (s : State)
  : State :=
  {| mode := mode s; selectedImage := selectedImage s;
     businessName := businessName s; searchQuery := searchQuery s;
     auditDescription := auditDescription s; isListening := isListening s;
     pitchTone := pitchTone s; pitchLength := pitchLength s;
     language := language s; analysisState := f (analysisState s) |}.

Definition setAuditDescription (f : jstring -> jstring) (s : State) : State :=
  {| mode := mode s; selectedImage := selectedImage s;
     businessName := businessName s; searchQuery := searchQuery s;
     auditDescription := f (auditDescription s); isListening := isListening s;
     pitchTone := pitchTone s; pitchLength := pitchLength s;
     language := language s; analysisState := analysisState s |}.

Definition setMode (m : AppMode) (s : State) : State :=
  {| mode := m; selectedImage := selectedImage s;
     businessName := businessName s; searchQuery := searchQuery s;
     auditDescription := auditDescription s; isListening := isListening s;
     pitchTone := pitchTone s; pitchLength := pitchLength s;
     language := language s; analysisState := analysisState s |}.

Definition setSelectedImage (i : option ImageFile) (s : State) : State :=
  {| mode := mode s; selectedImage := i;
     businessName := businessName s; searchQuery := searchQuery s;
     auditDescription := auditDescription s; isListening := isListening s;
     pitchTone := pitchTone s; pitchLength := pitchLength s;
     language := language s; analysisState := analysisState s |}.

Definition setBusinessName (v : jstring) (s : State) : State :=
  {| mode := mode s; selectedImage := selectedImage s;
     businessName := v; searchQuery := searchQuery s;
     auditDescription := auditDescription s; isListening := isListening s;
     pitchTone := pitchTone s; pitchLength := pitchLength s;
     language := language s; analysisState := analysisState s |}.

Definition setSearchQuery (v : jstring) (s : State) : State :=
  {| mode := mode s; selectedImage := selectedImage s;
     businessName := businessName s; searchQuery := v;
     auditDescription := auditDescription s; isListening := isListening s;
     pitchTone := pitchTone s; pitchLength := pitchLength s;
     language := language s; analysisState := analysisState s |}.

Definition setIsListening (b : bool) (s : State) : State :=
  {| mode := mode s; selectedImage := selectedImage s;
     businessName := businessName s; searchQuery := searchQuery s;
     auditDescription := auditDescription s; isListening := b;
     pitchTone := pitchTone s; pitchLength := pitchLength s;
     language := language s; analysisState := analysisState s |}.

Definition setPitchTone (t : PitchTone) (s : State) : State :=
  {| mode := mode s; selectedImage := selectedImage s;
     businessName := businessName s; searchQuery := searchQuery s;
     auditDescription := auditDescription s; isListening := isListening s;
     pitchTone := t; pitchLength := pitchLength s;
     language := language s; analysisState := analysisState s |}.

Definition setPitchLength (l : PitchLength) (s : State) : State :=
  {| mode := mode s; selectedImage := selectedImage s;
     businessName := businessName s; searchQuery := searchQuery s;
     auditDescription := auditDescription s; isListening := isListening s;
     pitchTone := pitchTone s; pitchLength := l;
     language := language s; analysisState := analysisState s |}.

Definition setLanguage (l : OutputLanguage) (s : State) : State :=
  {| mode := mode s; selectedImage := selectedImage s;
     businessName := businessName s; searchQuery := searchQuery s;
     auditDescription := auditDescription s; isListening := isListening s;
     pitchTone := pitchTone s; pitchLength := pitchLength s;
     language := l; analysisState := analysisState s |}.

(** The request function a handler awaits, with its arguments. *)
Inductive Call :=
  | analyzeBusinessImage (imageFile : File) (businessName : jstring)
      (tone : PitchTone) (length : PitchLength) (language : OutputLanguage)
  | searchBusinessLeads (query : jstring)
      (tone : PitchTone) (length : PitchLength) (language : OutputLanguage)
  | analyzeBusinessGap (description : jstring) (language : OutputLanguage).

Definition perform (reader : Service.FileReader) (ai : Service.GenAI)
    (c : Call) : Result Service.AnalysisResponse :=
  match c with
  | analyzeBusinessImage f n t l lang =>
      Service.analyzeBusinessImage reader ai f n t l lang
  | searchBusinessLeads q t l lang => Service.searchBusinessLeads ai q t l lang
  | analyzeBusinessGap d lang => Service.analyzeBusinessGap ai d lang
  end.

(** The [try] block of the called function. *)
Definition attempt (reader : Service.FileReader) (ai : Service.GenAI)
    (c : Call) : Result Service.AnalysisResponse :=
  match c with
  | analyzeBusinessImage f n t l lang =>
      Service.analyzeBusinessImage_try reader ai f n t l lang
  | searchBusinessLeads q t l lang =>
      Service.searchBusinessLeads_try ai q t l lang
  | analyzeBusinessGap d lang => Service.analyzeBusinessGap_try ai d lang
  end.

(** An [async] handler runs synchronously up to its first [await]: it
    either returns, or suspends on a request with the code that resumes
    it once the request settles.  The resumed code only calls state
    setters, so it is a function of the settled result and of the state
    current at that time. *)
Inductive Run :=
  | Done (s : State)
  | Await (s : State) (c : Call)
          (k : Result Service.AnalysisResponse -> State -> State).

Definition validation_message : jstring :=
  lit "Please enter a valid Business Name before proceeding.".

Definition unexpected_error : jstring := lit "An unexpected error occurred.".

Definition loading : AnalysisState :=
  {| isLoading := true; result := None; groundingMetadata := None;
     error := None |}.

Definition handleAnalyzeImage (s : State) : Run :=
  match selectedImage s with
  | None => Done s
  | Some selectedImage =>
      (* Input Validation: [typeof businessName !== 'string'] is false,
         the state holds a string *)
      if is_empty (businessName s) || false
         || is_empty (trim (businessName s)) then
        Done (setAnalysisState
                (fun prev =>
                   {| isLoading := isLoading prev; result := result prev;
                      groundingMetadata := groundingMetadata prev;
                      error := Some validation_message |}) s)
      else
        Await (setAnalysisState (fun _ => loading) s)
          (analyzeBusinessImage (file selectedImage) (trim (businessName s))
             (pitchTone s) (pitchLength s) (language s))
          (fun settled =>
             match settled with
             | Ok response =>
                 setAnalysisState (fun _ =>
                   {| isLoading := false;
                      result := Some (Service.text response);
                      groundingMetadata :=
                        Service.response_groundingMetadata response;
                      error := None |})
             | Throw err =>
                 let errorMessage :=
                   match err with
                   | ErrorObject message => message
                   | NonError _ => unexpected_error
                   end in
                 setAnalysisState (fun _ =>
                   {| isLoading := false; result := None;
                      groundingMetadata := None;
                      error := Some errorMessage |})
             end)
  end.

Definition handleSearchLeads (s : State) : Run :=
  if is_empty (trim (searchQuery s)) then Done s
  else
    Await (setAnalysisState (fun _ => loading) s)
      (searchBusinessLeads (searchQuery s)
         (pitchTone s) (pitchLength s) (language s))
      (fun settled =>
         match settled with
         | Ok response =>
             setAnalysisState (fun _ =>
               {| isLoading := false;
                  result := Some (Service.text response);
                  groundingMetadata :=
                    Service.response_groundingMetadata response;
                  error := None |})
         | Throw err =>
             let errorMessage :=
               match err with
               | ErrorObject message => message
               | NonError _ => unexpected_error
               end in
             setAnalysisState (fun _ =>
               {| isLoading := false; result := None;
                  groundingMetadata := None;
                  error := Some errorMessage |})
         end).

Definition handleSelfAudit (s : State) : Run :=
  if is_empty (trim (auditDescription s)) then Done s
  else
    Await (setAnalysisState (fun _ => loading) s)
      (analyzeBusinessGap (auditDescription s) (language s))
      (fun settled =>
         match settled with
         | Ok response =>
             setAnalysisState (fun _ =>
               {| isLoading := false;
                  result := Some (Service.text response);
                  groundingMetadata :=
                    Service.response_groundingMetadata response;
                  error := None |})
         | Throw err =>
             let errorMessage :=
               match err with
               | ErrorObject message => message
               | NonError _ => unexpected_error
               end in
             setAnalysisState (fun _ =>
               {| isLoading := false; result := None;
                  groundingMetadata := None;
                  error := Some errorMessage |})
         end).

(** *** Voice dictation: the [onresult] callback of [toggleListening] *)

Record SpeechRecognitionAlternative := { transcript : jstring }.

(** A recognition result holds at least one alternative; the callback
    reads item 0. *)
Record SpeechRecognitionResult := {
  isFinal : bool;
  item0 : SpeechRecognitionAlternative;
  alternatives : list SpeechRecognitionAlternative
}.

Record SpeechRecognitionEvent := {
  resultIndex : nat;
  results : list SpeechRecognitionResult
}.

(** The [for] loop over [event.results] from [event.resultIndex]; the
    accumulators are [(interimTranscript, finalTranscript)]. *)
Fixpoint collect (rs : list SpeechRecognitionResult)
    (acc : jstring * jstring) : jstring * jstring :=
  match rs with
  | [] => acc
  | r :: rs' =>
      let '(interimTranscript, finalTranscript) := acc in
      if isFinal r then
        collect rs' (interimTranscript, finalTranscript ++ transcript (item0 r))
      else
        collect rs' (interimTranscript ++ transcript (item0 r), finalTranscript)
  end.

Definition onresult (event : SpeechRecognitionEvent) (s : State) : State :=
  let '(interimTranscript, finalTranscript) :=
    collect (drop (resultIndex event) (results event)) ([], []) in
  (* We append the new transcript to the current text *)
  if negb (is_empty finalTranscript) then
    setAuditDescription
      (fun prev =>
         let separator :=
           if (0 <? length prev)%nat && negb (endsWith_space prev)
           then [SP] else [] in
         prev ++ separator ++ finalTranscript) s
  else s.

(** *** The rendered form: which handler each element binds, and when
    the element is disabled

    A handler bound in JSX runs only when the browser delivers the event
    to its element.  An element that is not rendered (the panel of another
    mode) has no handlers, and a form control whose [disabled] attribute
    is set receives neither clicks nor key or change events. *)

Section Form.

(** [process.env.API_KEY] *)
Variable API_KEY : option jstring.

Definition isAnalyzing (s : State) : bool := isLoading (analysisState s).

(** [mode === m], the condition under which the panel of [m] is rendered. *)
Definition mode_is (m : AppMode) (s : State) : bool :=
  bool_decide (mode s = m).

(** [disabled={!selectedImage || !businessName.trim() || isAnalyzing
    || !process.env.API_KEY}] *)
Definition analyze_button_disabled (s : State) : bool :=
  negb (bool_decide (is_Some (selectedImage s)))
  || is_empty (trim (businessName s))
  || isAnalyzing s || negb (truthy API_KEY).

(** [disabled={!searchQuery.trim() || isAnalyzing || !process.env.API_KEY}] *)
Definition search_button_disabled (s : State) : bool :=
  is_empty (trim (searchQuery s)) || isAnalyzing s || negb (truthy API_KEY).

(** [disabled={!auditDescription.trim() || isAnalyzing
    || !process.env.API_KEY}] *)
Definition audit_button_disabled (s : State) : bool :=
  is_empty (trim (auditDescription s)) || isAnalyzing s
  || negb (truthy API_KEY).

(** The search box, the business-name box, the image uploader and the
    three selects all carry [disabled={isAnalyzing}]. *)
Definition search_input_disabled (s : State) : bool := isAnalyzing s.
Definition business_name_disabled (s : State) : bool := isAnalyzing s.
Definition uploader_disabled (s : State) : bool := isAnalyzing s.
Definition select_disabled (s : State) : bool := isAnalyzing s.

Definition Enter : jstring := lit "Enter".

Definition jstring_eqb (a b : jstring) : bool := bool_decide (a = b).

Inductive Suggestion := CoffeeShops | Dentists | Roofing.

Definition suggestion_text (q : Suggestion) : jstring :=
  match q with
  | CoffeeShops => lit "Coffee shops without website near me"
  | Dentists => lit "Dentists in Chicago"
  | Roofing => lit "Roofing companies in Miami"
  end.

(** The events the rendered application can receive from the user and
    from the speech recognizer. *)
Inductive UIEvent :=
  | ClickMode (m : AppMode)
  | ChangeBusinessName (value : jstring)
  | ChooseFile (image : ImageFile)
  | ClickRemoveImage
  | ChangeLanguage (l : OutputLanguage)
  | ChangePitchTone (t : PitchTone)
  | ChangePitchLength (l : PitchLength)
  | ClickAnalyze
  | ChangeSearchQuery (value : jstring)
  | KeyDownSearch (key : jstring)
  | ClickSuggestion (q : Suggestion)
  | ClickSearch
  | ChangeAuditDescription (value : jstring)
  | ClickMic
  | RecognitionStart
  | RecognitionEnd
  | RecognitionError
  | RecognitionResult (event : SpeechRecognitionEvent)
  | ClickSelfAudit.

(** The handler runs when its element is rendered and enabled. *)
Definition deliver (rendered disabled : bool) (s : State) (handler : Run)
  : Run :=
  if rendered && negb disabled then handler else Done s.

Definition on_event (s : State) (ev : UIEvent) : Run :=
  match ev with
  | ClickMode m => Done (setMode m s)
  | ChangeBusinessName v =>
      deliver (mode_is IMAGE s) (business_name_disabled s) s
        (Done (setBusinessName v s))
  | ChooseFile image =>
      deliver (mode_is IMAGE s && negb (bool_decide (is_Some (selectedImage s))))
        (uploader_disabled s) s
        (Done (setSelectedImage (Some image) s))
  | ClickRemoveImage =>
      deliver (mode_is IMAGE s && bool_decide (is_Some (selectedImage s)))
        (uploader_disabled s) s
        (Done (setSelectedImage None s))
  | ChangeLanguage l =>
      deliver true (select_disabled s) s (Done (setLanguage l s))
  | ChangePitchTone t =>
      deliver (mode_is IMAGE s || mode_is SEARCH s) (select_disabled s) s
        (Done (setPitchTone t s))
  | ChangePitchLength l =>
      deliver (mode_is IMAGE s || mode_is SEARCH s) (select_disabled s) s
        (Done (setPitchLength l s))
  | ClickAnalyze =>
      deliver (mode_is IMAGE s) (analyze_button_disabled s) s
        (handleAnalyzeImage s)
  | ChangeSearchQuery v =>
      deliver (mode_is SEARCH s) (search_input_disabled s) s
        (Done (setSearchQuery v s))
  | KeyDownSearch key =>
      (* [e.key === 'Enter' && handleSearchLeads()] *)
      deliver (mode_is SEARCH s) (search_input_disabled s) s
        (if jstring_eqb key Enter then handleSearchLeads s else Done s)
  | ClickSuggestion q =>
      deliver (mode_is SEARCH s) false s
        (Done (setSearchQuery (suggestion_text q) s))
  | ClickSearch =>
      deliver (mode_is SEARCH s) (search_button_disabled s) s
        (handleSearchLeads s)
  | ChangeAuditDescription v =>
      deliver (mode_is SELF_AUDIT s) false s
        (Done (setAuditDescription (fun _ => v) s))
  | ClickMic =>
      deliver (mode_is SELF_AUDIT s) false s
        (if isListening s then Done (setIsListening false s) else Done s)
  | RecognitionStart => Done (setIsListening true s)
  | RecognitionEnd => Done (setIsListening false s)
  | RecognitionError => Done (setIsListening false s)
  | RecognitionResult event => Done (onresult event s)
  | ClickSelfAudit =>
      deliver (mode_is SELF_AUDIT s) (audit_button_disabled s) s
        (handleSelfAudit s)
  end.

(** The request a run dispatches, if any. *)
Definition dispatched (r : Run) : option Call :=
  match r with
  | Done _ => None
  | Await _ c _ => Some c
  end.

(** *** The session: the form state and the requests in flight *)

Record Pending := {
  call : Call;
  resume : Result Service.AnalysisResponse -> State -> State
}.

Record Session := { app : State; in_flight : list Pending }.

Definition start : Session := {| app := initial; in_flight := [] |}.

(** What happens in a session: a form event, or a request in flight
    settling with whatever the file reader and the vendor do for it. *)
Inductive Event :=
  | UI (ev : UIEvent)
  | Settle (i : nat) (reader : Service.FileReader) (ai : Service.GenAI).

Definition step (ss : Session) (e : Event) : Session :=
  match e with
  | UI ev =>
      match on_event (app ss) ev with
      | Done s => {| app := s; in_flight := in_flight ss |}
      | Await s c k =>
          {| app := s;
             in_flight := in_flight ss ++ [{| call := c; resume := k |}] |}
      end
  | Settle i reader ai =>
      match in_flight ss !! i with
      | Some p =>
          {| app := resume p (perform reader ai (call p)) (app ss);
             in_flight := delete i (in_flight ss) |}
      | None => ss
      end
  end.

Definition run (ss : Session) (es : list Event) : Session :=
  fold_left step es ss.

End Form.

End App.

(** ** components/AnalysisResult.tsx *)

Module AnalysisResult.

Record Props := {
  result : option jstring;
  groundingMetadata : option GroundingMetadata;
  isLoading : bool;
  error : option jstring;
  mode : AppMode;
  language : OutputLanguage
}.

(** The four [return] statements of the component. *)
Inductive View :=
  | LoadingView
  | ErrorView (message : jstring)
  | PlaceholderView
  | ResultView (markdown : jstring).

Definition render (p : Props) : View :=
  if isLoading p then LoadingView
  else
    match error p with
    | Some (c :: m) => ErrorView (c :: m)          (* [if (error)] *)
    | _ =>
        match result p with
        | Some (c :: r) => ResultView (c :: r)
        | _ => PlaceholderView                      (* [if (!result)] *)
        end
    end.

Definition mode_string (m : AppMode) : jstring :=
  match m with
  | IMAGE => lit "IMAGE"
  | SEARCH => lit "SEARCH"
  | SELF_AUDIT => lit "SELF_AUDIT"
  end.

Definition lead_header : jstring :=
  lit "Business Name,Address,Google Maps Link" ++ LF.

Definition generic_header : jstring :=
  lit "Date,Type,Analysis Content" ++ LF.

(** A template literal that wraps the escaped text in double quotes. *)
Definition quoted (s : jstring) : jstring := DQ ++ escape_quotes s ++ DQ.

(** [groundingMetadata?.groundingChunks?.some((c) => c.maps)], as a
    condition. *)
Definition hasMapData (p : Props) : bool :=
  match groundingMetadata p with
  | Some gm =>
      match groundingChunks gm with
      | Some chunks => existsb (fun c => bool_decide (is_Some (maps c))) chunks
      | None => false
      end
  | None => false
  end.

(** The body of the [forEach] callback: the text appended for a chunk. *)
Definition append_chunk (csvString : jstring) (chunk : GroundingChunk)
  : jstring :=
  match maps chunk with
  | Some m =>
      let row :=
        join_comma [ Some (quoted (or_else (title m) []));
                     Some (quoted (or_else (address m) []));
                     googleMapsUriString m ] in
      csvString ++ row ++ LF
  | None => csvString
  end.

(** [handleExportCSV]: the text handed to the downloaded [Blob], or
    [None] when the handler returns before building one.  [now] is
    [new Date().toISOString()]. *)
Definition handleExportCSV (now : jstring) (p : Props) : option jstring :=
  match result p with
  | Some (c :: r) =>
      let result := c :: r in
      if bool_decide (mode p = SEARCH) && hasMapData p then
        let csvString := lead_header in
        let chunks :=
          default [] (gm ← groundingMetadata p; groundingChunks gm) in
        Some (fold_left append_chunk chunks csvString)
      else
        let csvString := generic_header in
        let safeResult := quoted result in
        Some (csvString ++ now ++ [44] ++ mode_string (mode p) ++ [44]
              ++ safeResult)
  | _ => None                                       (* [if (!result) return] *)
  end.

End AnalysisResult.

(** [App] renders [AnalysisResult] with the fields of [analysisState]. *)
Definition result_props (s : App.State) : AnalysisResult.Props :=
  {| AnalysisResult.result := result (App.analysisState s);
     AnalysisResult.groundingMetadata := groundingMetadata (App.analysisState s);
     AnalysisResult.isLoading := isLoading (App.analysisState s);
     AnalysisResult.error := error (App.analysisState s);
     AnalysisResult.mode := App.mode s;
     AnalysisResult.language := App.language s |}.

(** ** Vocabulary of the specification *)

Module Spec.

(** A text that is empty or consists only of whitespace. *)
Definition blank (s : jstring) : Prop := Forall (fun c => is_white c = true) s.

(** The grounding metadata of the first candidate of a vendor response,
    when there is one. *)
Definition first_candidate_metadata (r : Service.GenerateContentResponse)
  : option GroundingMetadata :=
  match Service.candidates r with
  | Some (c :: _) => Service.candidate_groundingMetadata c
  | _ => None
  end.

(** The fallback text of each request function. *)
Definition fallback_text (c : App.Call) : jstring :=
  match c with
  | App.analyzeBusinessImage _ _ _ _ _ =>
      lit "No analysis generated. Please try again."
  | App.searchBusinessLeads _ _ _ _ =>
      lit "No leads found. Please try a different query."
  | App.analyzeBusinessGap _ _ =>
      lit "No analysis generated. Please try again."
  end.

(** The message under which a failure of a request function surfaces. *)
Definition failure_prefix (c : App.Call) : jstring :=
  match c with
  | App.analyzeBusinessImage _ _ _ _ _ => lit "Analysis failed: "
  | App.searchBusinessLeads _ _ _ _ => lit "Search failed: "
  | App.analyzeBusinessGap _ _ => lit "Audit failed: "
  end.

Definition failure_fallback (c : App.Call) : jstring :=
  match c with
  | App.analyzeBusinessImage _ _ _ _ _ =>
      lit "An unexpected error occurred during analysis."
  | App.searchBusinessLeads _ _ _ _ =>
      lit "An unexpected error occurred during search."
  | App.analyzeBusinessGap _ _ =>
      lit "An unexpected error occurred during audit."
  end.

Definition surfaced_message (c : App.Call) (e : Thrown) : jstring :=
  match e with
  | ErrorObject message => failure_prefix c ++ message
  | NonError _ => failure_fallback c
  end.

(** The state in which a failure with message [m] leaves the analysis. *)
Definition failed (m : jstring) : AnalysisState :=
  {| isLoading := false; result := None; groundingMetadata := None;
     error := Some m |}.

(** The three submit handlers. *)
Inductive Handler := AnalyzeImage | SearchLeads | SelfAudit.

Definition handler (h : Handler) : App.State -> App.Run :=
  match h with
  | AnalyzeImage => App.handleAnalyzeImage
  | SearchLeads => App.handleSearchLeads
  | SelfAudit => App.handleSelfAudit
  end.

(** The session invariant: requests are in flight only while the busy
    flag is up, and never more than one. *)
Definition one_in_flight (ss : App.Session) : Prop :=
  (App.isAnalyzing (App.app ss) = false -> App.in_flight ss = []) /\
  (length (App.in_flight ss) <= 1)%nat.

(** The separator of dictated text: one space when the text so far is
    not empty and does not end in a space. *)
Definition separator (prev : jstring) : jstring :=
  match last prev with
  | None => []
  | Some c => if bool_decide (c = SP) then [] else [SP]
  end.

(** The final results a recognition event reports, from its result index
    on, and their transcripts put together. *)
Definition final_results (event : App.SpeechRecognitionEvent)
  : list App.SpeechRecognitionResult :=
  filter (fun r => App.isFinal r = true)
    (drop (App.resultIndex event) (App.results event)).

Definition final_transcript (event : App.SpeechRecognitionEvent) : jstring :=
  concat (map (fun r => App.transcript (App.item0 r)) (final_results event)).

(** The same event without its interim results. *)
Definition finals_only (event : App.SpeechRecognitionEvent)
  : App.SpeechRecognitionEvent :=
  {| App.resultIndex := 0; App.results := final_results event |}.

(** The map chunks of the grounding metadata, in order. *)
Definition map_chunks (p : AnalysisResult.Props) : list MapsChunk :=
  omap maps
    (default [] (gm ← AnalysisResult.groundingMetadata p; groundingChunks gm)).

(** A field in double quotes with every embedded double quote doubled. *)
Definition quoted_field (s : jstring) : jstring :=
  [34] ++ flat_map (fun c => if bool_decide (c = 34) then [34; 34] else [c]) s
       ++ [34].

(** The CSV row of a map chunk. *)
Definition lead_row (m : MapsChunk) : jstring :=
  quoted_field (default [] (title m)) ++ [44]
  ++ quoted_field (default [] (address m)) ++ [44]
  ++ default [] (googleMapsUriString m) ++ LF.

(** The CSV row of a text result. *)
Definition generic_row (now : jstring) (m : AppMode) (r : jstring) : jstring :=
  now ++ [44] ++ AnalysisResult.mode_string m ++ [44] ++ quoted_field r.

(** Reading a quoted CSV field back: the text between the enclosing
    double quotes, a doubled quote standing for one. *)
Fixpoint unquote_body (s : jstring) : option jstring :=
  match s with
  | [] => None
  | c :: s' =>
      if c =? 34 then
        match s' with
        | [] => Some []
        | d :: s'' =>
            if d =? 34 then (fun t => 34 :: t) <$> unquote_body s'' else None
        end
      else (fun t => c :: t) <$> unquote_body s'
  end.

Definition unquote (s : jstring) : option jstring :=
  match s with
  | c :: s' => if c =? 34 then unquote_body s' else None
  | [] => None
  end.

(** A handler has the input it requires. *)
Definition ready (h : Handler) (s : App.State) : Prop :=
  match h with
  | AnalyzeImage =>
      is_Some (App.selectedImage s) /\ ~ blank (App.businessName s)
  | SearchLeads => ~ blank (App.searchQuery s)
  | SelfAudit => ~ blank (App.auditDescription s)
  end.

(** The request function of each handler. *)
Definition calls (h : Handler) (c : App.Call) : Prop :=
  match h, c with
  | AnalyzeImage, App.analyzeBusinessImage _ _ _ _ _ => True
  | SearchLeads, App.searchBusinessLeads _ _ _ _ => True
  | SelfAudit, App.analyzeBusinessGap _ _ => True
  | _, _ => False
  end.

End Spec.

(** ** Sample inputs *)

Module Sample.

Definition photo : File :=
  {| file_name := lit "shop.jpg"; file_type := lit "image/jpeg" |}.

Definition image : ImageFile :=
  {| file := photo; previewUrl := lit "blob:preview" |}.

Definition reads : Service.FileReader :=
  fun _ => Service.Loaded (lit "data:image/jpeg;base64,AAAA").

Definition read_fails : Service.FileReader := fun _ => Service.ReadFailed.

Definition place : MapsChunk :=
  {| title := Some (lit "Joe's " ++ DQ ++ lit "Best" ++ DQ ++ lit " Pizza");
     address := Some (lit "1 Main St, Austin");
     googleMapsUriString := None |}.

Definition link : WebChunk :=
  {| web_uri := Some (lit "https://example.org"); web_title := None |}.

Definition citations : GroundingMetadata :=
  {| groundingChunks :=
       Some [ {| web := None; maps := Some place |};
              {| web := Some link; maps := None |} ] |}.

Definition answer : Service.GenerateContentResponse :=
  {| Service.response_text := Some (lit "### Leads");
     Service.candidates :=
       Some [ {| Service.candidate_groundingMetadata := Some citations |} ] |}.

Definition silent_answer : Service.GenerateContentResponse :=
  {| Service.response_text := Some []; Service.candidates := None |}.

Definition answers : Service.GenAI := fun _ => Ok answer.

Definition answers_nothing : Service.GenAI := fun _ => Ok silent_answer.

Definition quota_exceeded : Service.GenAI :=
  fun _ => Throw (ErrorObject (lit "429 quota exceeded")).

(** A form filled in for each mode. *)
Definition image_form : App.State :=
  App.setBusinessName (lit " Joe's Pizza ")
    (App.setSelectedImage (Some image) App.initial).

Definition search_form : App.State :=
  App.setSearchQuery (lit "Bakeries in Brooklyn")
    (App.setMode SEARCH App.initial).

Definition audit_form : App.State :=
  App.setAuditDescription (fun _ => lit "We schedule via text messages")
    (App.setMode SELF_AUDIT App.initial).

(** The search form while its request is in flight. *)
Definition searching : App.State :=
  App.setAnalysisState (fun _ => App.loading) search_form.

(** The image form with a picture and a blank name, showing an earlier
    result. *)
Definition unnamed_image_form : App.State :=
  App.setAnalysisState
    (fun _ => {| isLoading := false; result := Some (lit "earlier analysis");
                 groundingMetadata := Some citations; error := None |})
    (App.setBusinessName (lit "   ")
       (App.setSelectedImage (Some image) App.initial)).

Definition dictation : App.SpeechRecognitionEvent :=
  {| App.resultIndex := 1;
     App.results :=
       [ {| App.isFinal := true;
            App.item0 := {| App.transcript := lit "old" |};
            App.alternatives := [] |};
         {| App.isFinal := true;
            App.item0 := {| App.transcript := lit "invoices are manual" |};
            App.alternatives := [] |};
         {| App.isFinal := false;
            App.item0 := {| App.transcript := lit "and we" |};
            App.alternatives := [] |} ] |}.

End Sample.

(** ** components/AnalysisResult.tsx: the rest of the panel *)

Module Panel.

(** *** Status messages shown while loading *)

Definition imageSteps : list jstring :=
  [ lit "Uploading and scanning image...";
    lit "Identifying business details...";
    lit "Analyzing digital presence gaps...";
    lit "Formulating sales strategy...";
    lit "Drafting personalized pitch...";
    lit "Finalizing report..." ].

Definition searchSteps : list jstring :=
  [ lit "Connecting to Google Maps...";
    lit "Searching for local businesses...";
    lit "Filtering for best opportunities...";
    lit "Analyzing lead potential...";
    lit "Drafting outreach templates...";
    lit "Compiling results..." ].

Definition auditSteps : list jstring :=
  [ lit "Analyzing business workflow...";
    lit "Identifying profit leaks...";
    lit "Detecting automation gaps...";
    lit "Mapping website solutions...";
    lit "Creating marketing strategy...";
    lit "Generating action plan..." ].

Definition steps (mode : AppMode) : list jstring :=
  let steps := imageSteps in
  let steps := if bool_decide (mode = SEARCH) then searchSteps else steps in
  let steps := if bool_decide (mode = SELF_AUDIT) then auditSteps else steps in
  steps.

(** The updater of the message interval:
    [prev < steps.length - 1 ? prev + 1 : prev]. *)
Definition next_message (mode : AppMode) (prev : nat) : nat :=
  if (prev <? length (steps mode) - 1)%nat then (prev + 1)%nat else prev.

(** What moves the message index while the panel is loading: the
    interval fires, or the effect runs again because the mode changed
    and starts over from the first message. *)
Inductive Beat :=
  | Tick
  | Restart (mode : AppMode).

Record Ticker := { ticker_mode : AppMode; messageIndex : nat }.

Definition beat (t : Ticker) (b : Beat) : Ticker :=
  match b with
  | Tick => {| ticker_mode := ticker_mode t;
               messageIndex := next_message (ticker_mode t) (messageIndex t) |}
  | Restart mode => {| ticker_mode := mode; messageIndex := 0 |}
  end.

(** The header of the loading view, [steps[messageIndex]]. *)
Definition status_message (t : Ticker) : option jstring :=
  steps (ticker_mode t) !! messageIndex t.

(** *** The list of identified locations *)

Inductive Item :=
  | MapItem (mapData : MapsChunk)
  | WebItem (href : option jstring) (label : option jstring).

(** [a || b] where both sides may be undefined. *)
Definition or_undefined (a b : option jstring) : option jstring :=
  if truthy a then a else b.

(** The callback of [chunks.map]; a chunk that has both kinds of data is
    listed as a map place. *)
Definition render_chunk (chunk : GroundingChunk) : option Item :=
  match maps chunk with
  | Some mapData => Some (MapItem mapData)
  | None =>
      match web chunk with
      | Some webData =>
          Some (WebItem (web_uri webData)
                  (or_undefined (web_title webData) (web_uri webData)))
      | None => None
      end
  end.

(** [renderGroundingChunks]: [None] when the function returns [null],
    the listed items otherwise. *)
Definition renderGroundingChunks (p : AnalysisResult.Props)
  : option (list (option Item)) :=
  match AnalysisResult.groundingMetadata p with
  | None => None
  | Some gm =>
      match groundingChunks gm with
      | None => None
      | Some groundingChunks =>
          let chunks :=
            filter (fun chunk => is_Some (web chunk) \/ is_Some (maps chunk))
              groundingChunks in
          if bool_decide (length chunks = 0%nat) then None
          else Some (map render_chunk chunks)
      end
  end.

(** *** Sharing the result *)

(** The characters [encodeURIComponent] leaves as they are. *)
Definition unreserved (c : N) : bool :=
  ((65 <=? c) && (c <=? 90)) || ((97 <=? c) && (c <=? 122))
  || ((48 <=? c) && (c <=? 57))
  || (c =? 45) || (c =? 95) || (c =? 46) || (c =? 33) || (c =? 126)
  || (c =? 42) || (c =? 39) || (c =? 40) || (c =? 41).

Definition hex_digit (n : N) : N := if n <? 10 then 48 + n else 55 + n.

(** One octet as a percent sign and two upper-case hexadecimal digits. *)
Definition percent (octet : N) : jstring :=
  [37; hex_digit (octet / 16); hex_digit (octet mod 16)].

(** The UTF-8 octets of a code point. *)
Definition utf8 (cp : N) : list N :=
  if cp <? 128 then [cp]
  else if cp <? 2048 then [192 + cp / 64; 128 + cp mod 64]
  else if cp <? 65536 then
    [224 + cp / 4096; 128 + (cp / 64) mod 64; 128 + cp mod 64]
  else
    [240 + cp / 262144; 128 + (cp / 4096) mod 64;
     128 + (cp / 64) mod 64; 128 + cp mod 64].

Definition is_high_surrogate (c : N) : bool := (55296 <=? c) && (c <=? 56319).
Definition is_low_surrogate (c : N) : bool := (56320 <=? c) && (c <=? 57343).

Definition URIError : Thrown := ErrorObject (lit "URI malformed").

(** [encodeURIComponent]: unreserved characters are kept, every other
    code point is written as its percent-encoded UTF-8 octets, and a
    surrogate without its partner raises a [URIError]. *)
Fixpoint encodeURIComponent (s : jstring) : Result jstring :=
  match s with
  | [] => Ok []
  | c :: s' =>
      if unreserved c then
        await rest := encodeURIComponent s' in Ok (c :: rest)
      else if is_low_surrogate c then Throw URIError
      else if is_high_surrogate c then
        match s' with
        | d :: s'' =>
            if is_low_surrogate d then
              let cp := (c - 55296) * 1024 + (d - 56320) + 65536 in
              await rest := encodeURIComponent s'' in
              Ok (flat_map percent (utf8 cp) ++ rest)
            else Throw URIError
        | [] => Throw URIError
        end
      else
        await rest := encodeURIComponent s' in
        Ok (flat_map percent (utf8 c) ++ rest)
  end.

(** The rocket emoji of the message header, U+1F680, as its two code
    units. *)
Definition rocket : jstring := [55357; 56960].

Definition share_header : jstring :=
  lit "*New Lead Diagnosis via LeadLens AI* " ++ rocket ++ LF ++ LF.

(** [handleWhatsAppShare]: [None] when the handler returns before doing
    anything; otherwise the URL passed to [window.open], or the error
    the handler lets escape. *)
Definition handleWhatsAppShare (number : jstring) (p : AnalysisResult.Props)
  : option (Result jstring) :=
  match AnalysisResult.result p with
  | Some (c :: r) =>
      let result := c :: r in
      let text := share_header ++ result in
      Some (await encodedText := encodeURIComponent text in
            let url := lit "https://wa.me/" ++ number ++ lit "?text="
                       ++ encodedText in
            Ok url)
  | _ => None
  end.

End Panel.

(** ** Reading CSV text back *)

Module Csv.

(** A reader of comma-separated text: records end at a line feed, fields
    at a comma; a field in double quotes may hold commas, line feeds and
    doubled double quotes; a double quote inside an unquoted field, or
    text after a closing quote, is an error. *)
Inductive Mode := FieldStart | InUnquoted | InQuoted | AfterQuote.

Fixpoint read (m : Mode) (field : jstring) (row : list jstring)
    (rows : list (list jstring)) (s : jstring) : option (list (list jstring)) :=
  let end_field := rev field :: row in
  let end_row := rev end_field :: rows in
  match s with
  | [] =>
      match m with
      | FieldStart =>
          match row with
          | [] => Some (rev rows)
          | _ => Some (rev end_row)
          end
      | InUnquoted | AfterQuote => Some (rev end_row)
      | InQuoted => None
      end
  | c :: s' =>
      match m with
      | FieldStart =>
          if c =? 34 then read InQuoted [] row rows s'
          else if c =? 44 then read FieldStart [] end_field rows s'
          else if c =? 10 then read FieldStart [] [] end_row s'
          else read InUnquoted [c] row rows s'
      | InUnquoted =>
          if c =? 34 then None
          else if c =? 44 then read FieldStart [] end_field rows s'
          else if c =? 10 then read FieldStart [] [] end_row s'
          else read InUnquoted (c :: field) row rows s'
      | InQuoted =>
          if c =? 34 then read AfterQuote field row rows s'
          else read InQuoted (c :: field) row rows s'
      | AfterQuote =>
          if c =? 34 then read InQuoted (34 :: field) row rows s'
          else if c =? 44 then read FieldStart [] end_field rows s'
          else if c =? 10 then read FieldStart [] [] end_row s'
          else None
      end
  end.

Definition parse (s : jstring) : option (list (list jstring)) :=
  read FieldStart [] [] [] s.

(** Text that can stand in a field without quotes: no double quote, no
    comma, no line feed. *)
Definition plain (u : jstring) : Prop :=
  Forall (fun c => c <> 34 /\ c <> 44 /\ c <> 10) u.

(** The fields of the lead-list record of a map chunk. *)
Definition lead_fields (m : MapsChunk) : list jstring :=
  [ default [] (title m); default [] (address m);
    default [] (googleMapsUriString m) ].

End Csv.

(** ** Shapes of the analysis state *)

Module Shape.

Definition idle : AnalysisState :=
  {| isLoading := false; result := None; groundingMetadata := None;
     error := None |}.

Definition shown (text : jstring) (gm : option GroundingMetadata)
  : AnalysisState :=
  {| isLoading := false; result := Some text; groundingMetadata := gm;
     error := None |}.

(** The four shapes: nothing yet, loading, a non-empty result, a
    non-empty error message. *)
Definition well_shaped (a : AnalysisState) : Prop :=
  a = idle \/ a = App.loading
  \/ (exists text gm, text <> [] /\ a = shown text gm)
  \/ (exists message, message <> [] /\ a = Spec.failed message).

(** What the code resumed after a request does to the analysis state. *)
Definition settles (k : Result Service.AnalysisResponse -> App.State -> App.State)
  : Prop :=
  forall settled now,
    App.analysisState (k settled now) =
      match settled with
      | Ok response =>
          shown (Service.text response)
            (Service.response_groundingMetadata response)
      | Throw (ErrorObject message) => Spec.failed message
      | Throw (NonError _) => Spec.failed App.unexpected_error
      end.

(** The panel as the prose describes it: by null tests alone. *)
Definition display (a : AnalysisState) : AnalysisResult.View :=
  if isLoading a then AnalysisResult.LoadingView
  else
    match error a with
    | Some message => AnalysisResult.ErrorView message
    | None =>
        match result a with
        | Some text => AnalysisResult.ResultView text
        | None => AnalysisResult.PlaceholderView
        end
    end.

(** The session invariant behind the shapes. *)
Definition steady (ss : App.Session) : Prop :=
  well_shaped (App.analysisState (App.app ss)) /\
  (App.isAnalyzing (App.app ss) = true <-> length (App.in_flight ss) = 1%nat) /\
  (length (App.in_flight ss) <= 1)%nat /\
  Forall (fun p => settles (App.resume p)) (App.in_flight ss).

(** The form fields a request is built from in image and search mode. *)
Definition request_inputs (s : App.State) :=
  (App.selectedImage s, App.businessName s, App.pitchTone s,
   App.pitchLength s, App.language s).

(** A request agrees with the form: it was built from the values the
    form holds.  The search query and the audit description are left
    out, their inputs stay editable while a request is loading. *)
Definition built_from (s : App.State) (c : App.Call) : Prop :=
  match c with
  | App.analyzeBusinessImage f n t l lang =>
      exists img,
        App.selectedImage s = Some img /\ f = file img /\
        n = trim (App.businessName s) /\
        t = App.pitchTone s /\ l = App.pitchLength s /\ lang = App.language s
  | App.searchBusinessLeads q t l lang =>
      t = App.pitchTone s /\ l = App.pitchLength s /\ lang = App.language s
  | App.analyzeBusinessGap d lang => lang = App.language s
  end.

(** What the panel shows for the outcome of a request. *)
Definition outcome_view (r : Result Service.AnalysisResponse)
  : AnalysisResult.View :=
  match r with
  | Ok response => AnalysisResult.ResultView (Service.text response)
  | Throw (ErrorObject message) => AnalysisResult.ErrorView message
  | Throw (NonError _) => AnalysisResult.ErrorView App.unexpected_error
  end.

(** The well-formed UTF-16 texts: every surrogate is half of a pair. *)
Fixpoint well_formed_utf16 (s : jstring) : bool :=
  match s with
  | [] => true
  | c :: s' =>
      if Panel.is_low_surrogate c then false
      else if Panel.is_high_surrogate c then
        match s' with
        | d :: s'' => Panel.is_low_surrogate d && well_formed_utf16 s''
        | [] => false
        end
      else well_formed_utf16 s'
  end.

(** The characters a percent-encoded text is made of. *)
Definition url_alphabet : jstring :=
  lit "ABCDEFGHIJKLMNOPQRSTUVWXYZabcdefghijklmnopqrstuvwxyz0123456789-_.!~*'()%".

Definition url_safe (c : N) : Prop := existsb (N.eqb c) url_alphabet = true.

(** The map place a listed item shows, if it shows one. *)
Definition listed_place (i : option Panel.Item) : option MapsChunk :=
  match i with
  | Some (Panel.MapItem mapData) => Some mapData
  | _ => None
  end.

(** The grounding chunks handed to the panel. *)
Definition chunks_of (p : AnalysisResult.Props) : list GroundingChunk :=
  default [] (gm ← AnalysisResult.groundingMetadata p; groundingChunks gm).

(** The header of the shared message, percent-encoded. *)
Definition encoded_header : jstring :=
  lit "*New%20Lead%20Diagnosis%20via%20LeadLens%20AI*%20%F0%9F%9A%80%0A%0A".

(** Code units are 16 bits wide. *)
Definition code_units (s : jstring) : Prop := Forall (fun c => c < 65536) s.

End Shape.

(** ** Reading a percent-encoded text back *)

Module Uri.

Definition hex_value (c : N) : option N :=
  if (48 <=? c) && (c <=? 57) then Some (c - 48)
  else if (65 <=? c) && (c <=? 70) then Some (c - 55)
  else if (97 <=? c) && (c <=? 102) then Some (c - 87)
  else None.

(** The octets of a percent-encoded text: a percent sign and two
    hexadecimal digits stand for one octet, any other ASCII character
    for itself. *)
Fixpoint unpercent (q : jstring) : option (list N) :=
  match q with
  | [] => Some []
  | c :: q' =>
      if c =? 37 then
        match q' with
        | h1 :: h2 :: q'' =>
            match hex_value h1, hex_value h2, unpercent q'' with
            | Some a, Some b, Some os => Some (a * 16 + b :: os)
            | _, _, _ => None
            end
        | _ => None
        end
      else if c <? 128 then
        match unpercent q' with
        | Some os => Some (c :: os)
        | None => None
        end
      else None
  end.

Definition continuation (b : N) : bool := (128 <=? b) && (b <? 192).

(** The code points of UTF-8 octets. *)
Fixpoint utf8_decode (os : list N) : option (list N) :=
  match os with
  | [] => Some []
  | b1 :: os1 =>
      if b1 <? 128 then
        match utf8_decode os1 with
        | Some cps => Some (b1 :: cps)
        | None => None
        end
      else if b1 <? 192 then None
      else if b1 <? 224 then
        match os1 with
        | b2 :: os2 =>
            match utf8_decode os2 with
            | Some cps =>
                if continuation b2
                then Some ((b1 - 192) * 64 + (b2 - 128) :: cps)
                else None
            | None => None
            end
        | _ => None
        end
      else if b1 <? 240 then
        match os1 with
        | b2 :: b3 :: os3 =>
            match utf8_decode os3 with
            | Some cps =>
                if continuation b2 && continuation b3
                then Some ((b1 - 224) * 4096 + (b2 - 128) * 64 + (b3 - 128)
                           :: cps)
                else None
            | None => None
            end
        | _ => None
        end
      else
        match os1 with
        | b2 :: b3 :: b4 :: os4 =>
            match utf8_decode os4 with
            | Some cps =>
                if continuation b2 && continuation b3 && continuation b4
                then Some ((b1 - 240) * 262144 + (b2 - 128) * 4096
                           + (b3 - 128) * 64 + (b4 - 128) :: cps)
                else None
            | None => None
            end
        | _ => None
        end
  end.

(** The UTF-16 code units of a code point. *)
Definition units (cp : N) : jstring :=
  if cp <? 65536 then [cp]
  else [55296 + (cp - 65536) / 1024; 56320 + (cp - 65536) mod 1024].

(** Decoding a percent-encoded text: its octets, read as UTF-8, written
    as UTF-16. *)
Definition decode (q : jstring) : option jstring :=
  match unpercent q with
  | Some os =>
      match utf8_decode os with
      | Some cps => Some (flat_map units cps)
      | None => None
      end
  | None => None
  end.

End Uri.

(** * Properties *)

(** ** Strings *)

Lemma trimStart_nil_iff (s : jstring) :
  trimStart s = [] <-> Spec.blank s.
Proof.
  unfold Spec.blank. induction s as [|c s IH]; simpl.
  - split; [constructor | reflexivity].
  - destruct (is_white c) eqn:Hc.
    + rewrite IH. split; [by constructor | by inversion 1].
    + split; [discriminate | inversion 1; congruence].
Qed.

Lemma trimStart_blank_suffix (s : jstring) :
  Spec.blank (trimStart s) -> Spec.blank s.
Proof.
  unfold Spec.blank. induction s as [|c s IH]; simpl; [done|].
  destruct (is_white c) eqn:Hc.
  - intros H. constructor; auto.
  - inversion 1; congruence.
Qed.

Lemma blank_rev (s : jstring) : Spec.blank (rev s) <-> Spec.blank s.
Proof.
  unfold Spec.blank. split; intros H.
  - rewrite <- (rev_involutive s). by apply List.Forall_rev.
  - by apply List.Forall_rev.
Qed.

(** [!s.trim()] holds exactly for the blank strings. *)
Lemma trim_empty_iff (s : jstring) :
  is_empty (trim s) = true <-> Spec.blank s.
Proof.
  unfold trim, trimEnd. split.
  - intros H. apply trimStart_blank_suffix.
    destruct (rev (trimStart (rev (trimStart s)))) as [|c r] eqn:E;
      [|discriminate].
    apply (f_equal (@rev N)) in E. rewrite rev_involutive in E. simpl in E.
    apply trimStart_nil_iff in E. exact (proj1 (blank_rev _) E).
  - intros H. apply trimStart_nil_iff in H. rewrite H. reflexivity.
Qed.

Lemma trim_not_blank (s : jstring) :
  is_empty (trim s) = false <-> ~ Spec.blank s.
Proof.
  rewrite <- trim_empty_iff. destruct (is_empty (trim s)); split; done.
Qed.

Lemma is_empty_blank (s : jstring) : is_empty s = true -> Spec.blank s.
Proof. destruct s; [constructor | discriminate]. Qed.

Lemma or_else_nonempty (v : option jstring) (d : jstring) :
  d <> [] -> or_else v d <> [].
Proof. destruct v as [[|c s]|]; simpl; done. Qed.

Lemma or_else_truthy (v : option jstring) (d : jstring) :
  truthy v = true -> Some (or_else v d) = v.
Proof. destruct v as [[|c s]|]; simpl; done. Qed.

Lemma or_else_falsy (v : option jstring) (d : jstring) :
  truthy v = false -> or_else v d = d.
Proof. destruct v as [[|c s]|]; simpl; done. Qed.

Example trim_strips_unicode_space :
  trim ([160; 9] ++ lit "Joe's Pizza" ++ [12288; 10]) = lit "Joe's Pizza".
Proof. reflexivity. Qed.

(** ** The request functions *)

Section RequestFunctions.

Import Service.

Variable reader : FileReader.
Variable ai : GenAI.

(** A request function returns exactly when its [try] block does, with
    the same value. *)
Lemma try_catch_rethrow_Ok {A} (body : Result A) prefix fallback (a : A) :
  try_catch body (rethrow prefix fallback) = Ok a <-> body = Ok a.
Proof. destruct body as [b|[m|v]]; simpl; split; congruence. Qed.

Lemma try_catch_rethrow_Throw {A} (body : Result A) prefix fallback e :
  body = Throw e ->
  try_catch body (rethrow prefix fallback) =
    Throw (ErrorObject match e with
                       | ErrorObject message => prefix ++ message
                       | NonError _ => fallback
                       end).
Proof. intros ->. by destruct e. Qed.

Lemma analyzeBusinessImage_Ok f n t l lang r :
  analyzeBusinessImage reader ai f n t l lang = Ok r <->
  exists part resp,
    fileToGenerativePart reader f = Ok part /\
    ai (image_request part n t l lang) = Ok resp /\
    r = {| text := or_else (response_text resp) no_analysis;
           response_groundingMetadata := None |}.
Proof.
  unfold analyzeBusinessImage. rewrite try_catch_rethrow_Ok.
  unfold analyzeBusinessImage_try.
  destruct (fileToGenerativePart reader f) as [part|e] eqn:Hp; simpl.
  - destruct (ai (image_request part n t l lang)) as [resp|e] eqn:Hr; simpl.
    + split.
      * intros [= <-]. exists part, resp. by rewrite Hr.
      * intros (part' & resp' & [= <-] & Hr' & ->). congruence.
    + split; [done|]. intros (part' & resp' & [= <-] & Hr' & _). congruence.
  - split; [done|]. by intros (part' & resp' & ? & _).
Qed.

Lemma searchBusinessLeads_Ok q t l lang r :
  searchBusinessLeads ai q t l lang = Ok r <->
  exists resp,
    ai (search_request q t l lang) = Ok resp /\
    r = {| text := or_else (response_text resp) no_leads;
           response_groundingMetadata := Spec.first_candidate_metadata resp |}.
Proof.
  unfold searchBusinessLeads. rewrite try_catch_rethrow_Ok.
  unfold searchBusinessLeads_try.
  destruct (ai (search_request q t l lang)) as [resp|e] eqn:Hr; simpl.
  - assert (Hm : (cs ← candidates resp; c ← cs !! 0%nat;
                  candidate_groundingMetadata c)
                 = Spec.first_candidate_metadata resp).
    { unfold Spec.first_candidate_metadata.
      by destruct (candidates resp) as [[|c cs]|]. }
    rewrite Hm. split.
    + intros [= <-]. by exists resp.
    + intros (resp' & [= <-] & ->). done.
  - split; [done|]. by intros (resp' & ? & _).
Qed.

Lemma analyzeBusinessGap_Ok d lang r :
  analyzeBusinessGap ai d lang = Ok r <->
  exists resp,
    ai (audit_request d lang) = Ok resp /\
    r = {| text := or_else (response_text resp) no_analysis;
           response_groundingMetadata := None |}.
Proof.
  unfold analyzeBusinessGap. rewrite try_catch_rethrow_Ok.
  unfold analyzeBusinessGap_try.
  destruct (ai (audit_request d lang)) as [resp|e] eqn:Hr; simpl.
  - split.
    + intros [= <-]. by exists resp.
    + intros (resp' & [= <-] & ->). done.
  - split; [done|]. by intros (resp' & ? & _).
Qed.

End RequestFunctions.

(** ** Claims about the request functions *)

(** C1. Every request function that returns, returns a record of a text
    and a grounding-metadata field; the image and audit functions return
    no grounding metadata, and the search function returns the grounding
    metadata of the first candidate of the vendor response when there is
    one and none otherwise. *)
Theorem uniform_response_shape
    (reader : Service.FileReader) (ai : Service.GenAI) :
  (forall f n t l lang r,
     Service.analyzeBusinessImage reader ai f n t l lang = Ok r ->
     Service.response_groundingMetadata r = None) /\
  (forall q t l lang r,
     Service.searchBusinessLeads ai q t l lang = Ok r ->
     exists resp,
       ai (Service.search_request q t l lang) = Ok resp /\
       Service.response_groundingMetadata r
         = Spec.first_candidate_metadata resp) /\
  (forall d lang r,
     Service.analyzeBusinessGap ai d lang = Ok r ->
     Service.response_groundingMetadata r = None).
Proof.
  repeat split.
  - intros f n t l lang r H.
    apply analyzeBusinessImage_Ok in H as (part & resp & _ & _ & ->). done.
  - intros q t l lang r H.
    apply searchBusinessLeads_Ok in H as (resp & Hr & ->). by exists resp.
  - intros d lang r H.
    apply analyzeBusinessGap_Ok in H as (resp & _ & ->). done.
Qed.

Lemma uniform_response_shape_witness :
  Service.response_groundingMetadata
    {| Service.text := lit "### Leads";
       Service.response_groundingMetadata := None |} = None /\
  exists resp,
    Sample.answers
      (Service.search_request (lit "Bakeries") PAIN_FOCUSED SHORT English)
      = Ok resp /\
    Some Sample.citations = Spec.first_candidate_metadata resp.
Proof.
  split.
  - exact (proj1 (uniform_response_shape Sample.reads Sample.answers)
             Sample.photo (lit "Joe") TONE_STANDARD SHORT English _
             eq_refl).
  - exact (proj1 (proj2 (uniform_response_shape Sample.reads Sample.answers))
             (lit "Bakeries") PAIN_FOCUSED SHORT English _ eq_refl).
Defined.

(** C9. The text a request function returns is never empty: it is the
    text of the vendor response, or the fixed fallback of the function
    when that text is empty or undefined. *)
Theorem returned_text_nonempty
    (reader : Service.FileReader) (ai : Service.GenAI)
    (c : App.Call) (r : Service.AnalysisResponse) :
  App.perform reader ai c = Ok r ->
  Service.text r <> [] /\
  exists req resp,
    ai req = Ok resp /\
    (truthy (Service.response_text resp) = true ->
     Service.response_text resp = Some (Service.text r)) /\
    (truthy (Service.response_text resp) = false ->
     Service.text r = Spec.fallback_text c).
Proof.
  destruct c as [f n t l lang|q t l lang|d lang]; simpl; intros H.
  - apply analyzeBusinessImage_Ok in H as (part & resp & _ & Hr & ->).
    split; [by apply or_else_nonempty|]. eexists _, resp. split; [exact Hr|].
    split; intros Ht; simpl;
      [by rewrite or_else_truthy | by rewrite or_else_falsy].
  - apply searchBusinessLeads_Ok in H as (resp & Hr & ->).
    split; [by apply or_else_nonempty|]. eexists _, resp. split; [exact Hr|].
    split; intros Ht; simpl;
      [by rewrite or_else_truthy | by rewrite or_else_falsy].
  - apply analyzeBusinessGap_Ok in H as (resp & Hr & ->).
    split; [by apply or_else_nonempty|]. eexists _, resp. split; [exact Hr|].
    split; intros Ht; simpl;
      [by rewrite or_else_truthy | by rewrite or_else_falsy].
Qed.

Lemma returned_text_nonempty_witness :
  lit "No leads found. Please try a different query." <> [] /\
  exists req resp,
    Sample.answers_nothing req = Ok resp /\
    (truthy (Service.response_text resp) = true ->
     Service.response_text resp
       = Some (lit "No leads found. Please try a different query.")) /\
    (truthy (Service.response_text resp) = false ->
     lit "No leads found. Please try a different query."
       = lit "No leads found. Please try a different query.").
Proof.
  exact (returned_text_nonempty Sample.reads Sample.answers_nothing
           (App.searchBusinessLeads (lit "Bakeries") TONE_STANDARD SHORT
              English) _ eq_refl).
Defined.



Lemma perform_Throw (reader : Service.FileReader) (ai : Service.GenAI)
    (c : App.Call) (e : Thrown) :
  App.attempt reader ai c = Throw e ->
  App.perform reader ai c = Throw (ErrorObject (Spec.surfaced_message c e)).
Proof.
  intros He. destruct c; simpl in *;
    unfold Service.analyzeBusinessImage, Service.searchBusinessLeads,
      Service.analyzeBusinessGap;
    rewrite (try_catch_rethrow_Throw _ _ _ _ He); by destruct e.
Qed.

Lemma perform_Throw_inv (reader : Service.FileReader) (ai : Service.GenAI)
    (c : App.Call) (e' : Thrown) :
  App.perform reader ai c = Throw e' ->
  exists e, App.attempt reader ai c = Throw e /\
            e' = ErrorObject (Spec.surfaced_message c e).
Proof.
  intros Hp. destruct (App.attempt reader ai c) as [r|e] eqn:He.
  - destruct c; simpl in *;
      unfold Service.analyzeBusinessImage, Service.searchBusinessLeads,
        Service.analyzeBusinessGap in Hp;
      by rewrite He in Hp.
  - exists e. split; [done|]. rewrite (perform_Throw _ _ _ _ He) in Hp.
    by injection Hp as <-.
Qed.

(** A handler that has its input sends the request of its mode. *)
Lemma handler_ready (h : Spec.Handler) (s : App.State) :
  Spec.ready h s ->
  exists c k,
    Spec.handler h s
      = App.Await (App.setAnalysisState (fun _ => App.loading) s) c k /\
    Spec.calls h c.
Proof.
  destruct h; simpl.
  - intros [[img Hi] Hb]. apply trim_not_blank in Hb.
    unfold App.handleAnalyzeImage. rewrite Hi, Hb.
    destruct (App.businessName s) as [|d n] eqn:Hn; [done|]. simpl.
    by eexists _, _.
  - intros Hb. apply trim_not_blank in Hb.
    unfold App.handleSearchLeads. rewrite Hb. by eexists _, _.
  - intros Hb. apply trim_not_blank in Hb.
    unfold App.handleSelfAudit. rewrite Hb. by eexists _, _.
Qed.

Lemma handler_stores_failure (h : Spec.Handler) (s s' now : App.State)
    (c : App.Call) k (m : jstring) :
  Spec.handler h s = App.Await s' c k ->
  App.analysisState (k (Throw (ErrorObject m)) now) = Spec.failed m.
Proof.
  destruct h; simpl.
  - unfold App.handleAnalyzeImage.
    destruct (App.selectedImage s); [|discriminate].
    destruct (_ || _); [discriminate|]. by intros [= <- <- <-].
  - unfold App.handleSearchLeads.
    destruct (is_empty _); [discriminate|]. by intros [= <- <- <-].
  - unfold App.handleSelfAudit.
    destruct (is_empty _); [discriminate|]. by intros [= <- <- <-].
Qed.

(** C3. Each submit handler that has its input calls the request
    function of its mode, and every failure of that call is caught and
    surfaced as one message.  Whatever is thrown inside the [try] block
    of the request function, the function rethrows one [Error] whose
    message is the original message behind the prefix of the function
    (Analysis failed, Search failed, Audit failed) when an [Error] was
    thrown, and the fixed fallback of the function otherwise; the
    function fails in no other way; and the handler then stores that
    message in the analysis state, not loading and with no result and
    no grounding metadata. *)
Theorem failure_surfaced
    (reader : Service.FileReader) (ai : Service.GenAI)
    (h : Spec.Handler) (s now : App.State) :
  Spec.ready h s ->
  exists c k,
    Spec.handler h s
      = App.Await (App.setAnalysisState (fun _ => App.loading) s) c k /\
    Spec.calls h c /\
    (forall e,
       App.attempt reader ai c = Throw e ->
       App.perform reader ai c
         = Throw (ErrorObject (Spec.surfaced_message c e)) /\
       App.analysisState (k (App.perform reader ai c) now)
         = Spec.failed (Spec.surfaced_message c e)) /\
    (forall e',
       App.perform reader ai c = Throw e' ->
       exists e,
         App.attempt reader ai c = Throw e /\
         e' = ErrorObject (Spec.surfaced_message c e) /\
         App.analysisState (k (App.perform reader ai c) now)
           = Spec.failed (Spec.surfaced_message c e)).
Proof.
  intros Hready. destruct (handler_ready h s Hready) as (c & k & Hh & Hc).
  exists c, k. do 2 (split; [done|]). split.
  - intros e He. pose proof (perform_Throw reader ai c e He) as Hp.
    split; [exact Hp|]. rewrite Hp. by eapply handler_stores_failure.
  - intros e' Hp'. destruct (perform_Throw_inv reader ai c e' Hp')
      as (e & He & ->).
    exists e. do 2 (split; [done|]). rewrite Hp'.
    by eapply handler_stores_failure.
Qed.

Lemma failure_surfaced_witness :
  exists c k,
    App.handleAnalyzeImage Sample.image_form
      = App.Await
          (App.setAnalysisState (fun _ => App.loading) Sample.image_form) c k /\
    c = App.analyzeBusinessImage Sample.photo (lit "Joe's Pizza")
          TONE_STANDARD LENGTH_STANDARD English /\
    App.analysisState
      (k (App.perform Sample.reads Sample.quota_exceeded c) Sample.image_form)
    = Spec.failed (lit "Analysis failed: 429 quota exceeded").
Proof.
  assert (Hready : Spec.ready Spec.AnalyzeImage Sample.image_form).
  { split; [by eexists|]. intros Hb. apply trim_empty_iff in Hb.
    discriminate Hb. }
  destruct (failure_surfaced Sample.reads Sample.quota_exceeded
              Spec.AnalyzeImage Sample.image_form Sample.image_form Hready)
    as (c & k & Hh & _ & Hthrow & _).
  exists c, k. split; [exact Hh|].
  assert (Hc : c = App.analyzeBusinessImage Sample.photo (lit "Joe's Pizza")
                     TONE_STANDARD LENGTH_STANDARD English).
  { simpl in Hh. vm_compute in Hh. by injection Hh as <- _. }
  split; [exact Hc|]. subst c.
  exact (proj2 (Hthrow (ErrorObject (lit "429 quota exceeded")) eq_refl)).
Defined.

(** A file that cannot be read surfaces under the fallback message: the
    reader rejects with its error event, which is not an [Error]. *)
Example unreadable_file_message :
  App.perform Sample.read_fails Sample.answers
    (App.analyzeBusinessImage Sample.photo (lit "Joe's Pizza") TONE_STANDARD
       LENGTH_STANDARD English)
  = Throw (ErrorObject (lit "An unexpected error occurred during analysis.")).
Proof. reflexivity. Qed.

(** ** Claims about the submit handlers *)

(** The image handler sends the trimmed business name. *)
Example image_form_request :
  App.dispatched (App.handleAnalyzeImage Sample.image_form)
  = Some (App.analyzeBusinessImage Sample.photo (lit "Joe's Pizza")
            TONE_STANDARD LENGTH_STANDARD English).
Proof. reflexivity. Qed.

Lemma handleAnalyzeImage_no_image (s : App.State) :
  App.selectedImage s = None -> App.handleAnalyzeImage s = App.Done s.
Proof. unfold App.handleAnalyzeImage. by intros ->. Qed.

Lemma handleAnalyzeImage_blank (s : App.State) (img : ImageFile) :
  App.selectedImage s = Some img ->
  Spec.blank (App.businessName s) ->
  App.handleAnalyzeImage s =
    App.Done (App.setAnalysisState
                (fun prev =>
                   {| isLoading := isLoading prev; result := result prev;
                      groundingMetadata := groundingMetadata prev;
                      error := Some App.validation_message |}) s).
Proof.
  intros Hi Hb. unfold App.handleAnalyzeImage. rewrite Hi.
  apply trim_empty_iff in Hb. rewrite Hb.
  by rewrite !orb_true_r.
Qed.

Lemma handleSearchLeads_blank (s : App.State) :
  Spec.blank (App.searchQuery s) -> App.handleSearchLeads s = App.Done s.
Proof.
  intros Hb. unfold App.handleSearchLeads.
  apply trim_empty_iff in Hb. by rewrite Hb.
Qed.

Lemma handleSelfAudit_blank (s : App.State) :
  Spec.blank (App.auditDescription s) -> App.handleSelfAudit s = App.Done s.
Proof.
  intros Hb. unfold App.handleSelfAudit.
  apply trim_empty_iff in Hb. by rewrite Hb.
Qed.

(** C4, as the code has it. A submit handler whose required input is
    missing or blank returns without dispatching a request: no selected
    image or a blank business name for the image handler, a blank query
    for the search handler, a blank description for the audit handler.
    With a selected image and a blank business name the image handler
    also sets the validation message. *)
Theorem required_fields_validated (s : App.State) :
  (App.selectedImage s = None \/ Spec.blank (App.businessName s) ->
   App.dispatched (App.handleAnalyzeImage s) = None) /\
  (Spec.blank (App.searchQuery s) ->
   App.dispatched (App.handleSearchLeads s) = None) /\
  (Spec.blank (App.auditDescription s) ->
   App.dispatched (App.handleSelfAudit s) = None) /\
  (is_Some (App.selectedImage s) -> Spec.blank (App.businessName s) ->
   exists s', App.handleAnalyzeImage s = App.Done s' /\
              error (App.analysisState s') = Some App.validation_message).
Proof.
  repeat split.
  - intros [Hi|Hb].
    + by rewrite handleAnalyzeImage_no_image.
    + destruct (App.selectedImage s) as [img|] eqn:Hi.
      * by rewrite (handleAnalyzeImage_blank s img).
      * by rewrite handleAnalyzeImage_no_image.
  - intros Hb. by rewrite handleSearchLeads_blank.
  - intros Hb. by rewrite handleSelfAudit_blank.
  - intros [img Hi] Hb. eexists.
    split; [by apply (handleAnalyzeImage_blank s img)|].
    reflexivity.
Qed.

Lemma required_fields_validated_witness :
  App.dispatched (App.handleAnalyzeImage Sample.unnamed_image_form) = None /\
  exists s', App.handleAnalyzeImage Sample.unnamed_image_form = App.Done s' /\
             error (App.analysisState s') = Some App.validation_message.
Proof.
  assert (Hb : Spec.blank (App.businessName Sample.unnamed_image_form)).
  { vm_compute. repeat constructor. }
  pose proof (required_fields_validated Sample.unnamed_image_form)
    as (Hnone & _ & _ & Hmsg).
  split.
  - apply Hnone. right. exact Hb.
  - apply Hmsg; [by eexists | exact Hb].
Defined.

(** C4, as stated, fails: with no image selected and a blank business
    name the image handler returns at once and sets no message. *)
Lemma blank_name_without_image_sets_no_message :
  Spec.blank (App.businessName App.initial) /\
  App.handleAnalyzeImage App.initial = App.Done App.initial /\
  error (App.analysisState App.initial) = None.
Proof. repeat split. constructor. Qed.

(** C8. With a selected image and a blank business name, the image
    handler changes the error field alone: it becomes the validation
    message, while the loading flag, the result and the grounding
    metadata (and the rest of the form) keep their values. *)
Theorem validation_keeps_previous_result (s : App.State) (img : ImageFile) :
  App.selectedImage s = Some img ->
  Spec.blank (App.businessName s) ->
  exists s',
    App.handleAnalyzeImage s = App.Done s' /\
    error (App.analysisState s') = Some App.validation_message /\
    isLoading (App.analysisState s') = isLoading (App.analysisState s) /\
    result (App.analysisState s') = result (App.analysisState s) /\
    groundingMetadata (App.analysisState s')
      = groundingMetadata (App.analysisState s) /\
    s' = App.setAnalysisState (fun _ => App.analysisState s') s.
Proof.
  intros Hi Hb. eexists. split; [by apply (handleAnalyzeImage_blank s img)|].
  by repeat split.
Qed.

Lemma validation_keeps_previous_result_witness :
  exists s',
    App.handleAnalyzeImage Sample.unnamed_image_form = App.Done s' /\
    error (App.analysisState s') = Some App.validation_message /\
    isLoading (App.analysisState s') = false /\
    result (App.analysisState s') = Some (lit "earlier analysis") /\
    groundingMetadata (App.analysisState s') = Some Sample.citations /\
    s' = App.setAnalysisState (fun _ => App.analysisState s')
           Sample.unnamed_image_form.
Proof.
  apply (validation_keeps_previous_result Sample.unnamed_image_form
           Sample.image eq_refl).
  vm_compute. repeat constructor.
Defined.

(** ** The busy flag *)

Section BusyFlag.

Variable API_KEY : option jstring.

Ltac busy :=
  unfold App.deliver, App.analyze_button_disabled,
    App.search_button_disabled, App.audit_button_disabled,
    App.search_input_disabled, App.business_name_disabled,
    App.uploader_disabled, App.select_disabled.

(** While a request is loading, no form event dispatches a request. *)
Lemma loading_blocks_dispatch (s : App.State) (ev : App.UIEvent) :
  App.isAnalyzing s = true ->
  App.dispatched (App.on_event API_KEY s ev) = None.
Proof.
  intros Hl. destruct ev; simpl; busy; rewrite ?Hl;
    rewrite ?orb_true_r, ?orb_true_l, ?andb_false_r; simpl; try done.
  - by destruct (_ && _).
  - by destruct (_ && _).
  - by destruct (App.isListening s), (_ && _).
Qed.

Lemma setAnalysisState_loading (f : AnalysisState -> AnalysisState) s :
  App.isAnalyzing (App.setAnalysisState f s) = isLoading (f (App.analysisState s)).
Proof. reflexivity. Qed.

(** A handler that suspends has raised the busy flag. *)
Lemma handler_Await_loading (h : Spec.Handler) s s' c k :
  Spec.handler h s = App.Await s' c k -> App.isAnalyzing s' = true.
Proof.
  destruct h; simpl.
  - unfold App.handleAnalyzeImage. destruct (App.selectedImage s); [|done].
    destruct (_ || _); [done|]. by intros [= <- _ _].
  - unfold App.handleSearchLeads. destruct (is_empty _); [done|].
    by intros [= <- _ _].
  - unfold App.handleSelfAudit. destruct (is_empty _); [done|].
    by intros [= <- _ _].
Qed.

(** A handler that returns leaves the busy flag as it was. *)
Lemma handler_Done_loading (h : Spec.Handler) s s' :
  Spec.handler h s = App.Done s' -> App.isAnalyzing s' = App.isAnalyzing s.
Proof.
  destruct h; simpl.
  - unfold App.handleAnalyzeImage. destruct (App.selectedImage s).
    + destruct (_ || _); [|done]. by intros [= <-].
    + by intros [= <-].
  - unfold App.handleSearchLeads. destruct (is_empty _); [|done].
    by intros [= <-].
  - unfold App.handleSelfAudit. destruct (is_empty _); [|done].
    by intros [= <-].
Qed.

Lemma on_event_Await (s s' : App.State) ev c k :
  App.on_event API_KEY s ev = App.Await s' c k ->
  App.isAnalyzing s = false /\ App.isAnalyzing s' = true.
Proof.
  intros H. split.
  - destruct (App.isAnalyzing s) eqn:Hl; [|done].
    pose proof (loading_blocks_dispatch s ev Hl) as Hn. by rewrite H in Hn.
  - destruct ev; simpl in H; unfold App.deliver in H;
      repeat match type of H with
             | (if ?b then _ else _) = _ => destruct b; try discriminate
             end; try discriminate.
    + exact (handler_Await_loading Spec.AnalyzeImage _ _ _ _ H).
    + exact (handler_Await_loading Spec.SearchLeads _ _ _ _ H).
    + exact (handler_Await_loading Spec.SearchLeads _ _ _ _ H).
    + exact (handler_Await_loading Spec.SelfAudit _ _ _ _ H).
Qed.

Lemma onresult_loading event s :
  App.isAnalyzing (App.onresult event s) = App.isAnalyzing s.
Proof.
  unfold App.onresult. destruct (App.collect _ _) as [i f].
  by destruct (negb (is_empty f)).
Qed.

Lemma on_event_Done (s s' : App.State) ev :
  App.on_event API_KEY s ev = App.Done s' ->
  App.isAnalyzing s' = App.isAnalyzing s.
Proof.
  intros H.
  destruct ev; simpl in H; unfold App.deliver in H;
    repeat match type of H with
           | (if ?b then _ else _) = _ => destruct b
           end;
    try (injection H as <-; first [reflexivity | apply onresult_loading]).
  - exact (handler_Done_loading Spec.AnalyzeImage _ _ H).
  - exact (handler_Done_loading Spec.SearchLeads _ _ H).
  - exact (handler_Done_loading Spec.SearchLeads _ _ H).
  - exact (handler_Done_loading Spec.SelfAudit _ _ H).
Qed.

Lemma one_in_flight_step (ss : App.Session) (e : App.Event) :
  Spec.one_in_flight ss -> Spec.one_in_flight (App.step API_KEY ss e).
Proof.
  intros [Hidle Hone]. destruct e as [ev|i reader ai]; simpl.
  - destruct (App.on_event API_KEY (App.app ss) ev) as [s|s c k] eqn:He.
    + apply on_event_Done in He. split; simpl; [|done].
      rewrite He. exact Hidle.
    + apply on_event_Await in He as [Hwas Hnow]. split; simpl.
      * by rewrite Hnow.
      * by rewrite (Hidle Hwas).
  - destruct (App.in_flight ss !! i) as [p|] eqn:Hp; [|by split].
    assert (Hnil : delete i (App.in_flight ss) = []).
    { destruct (App.in_flight ss) as [|p0 [|p1 l]]; simpl in *;
        [done| |lia].
      by destruct i. }
    split; simpl; rewrite Hnil; [done|simpl; lia].
Qed.

Lemma one_in_flight_run (es : list App.Event) (ss : App.Session) :
  Spec.one_in_flight ss -> Spec.one_in_flight (App.run API_KEY ss es).
Proof.
  revert ss. induction es as [|e es IH]; intros ss H; simpl; [done|].
  apply IH. by apply one_in_flight_step.
Qed.

(** The Enter key reaches an unguarded handler: called on its own while
    loading, [handleSearchLeads] would dispatch again.  What keeps the
    second request from being sent is the disabled search box. *)
Remark handleSearchLeads_checks_only_the_query (s : App.State) :
  ~ Spec.blank (App.searchQuery s) ->
  App.dispatched (App.handleSearchLeads s)
    = Some (App.searchBusinessLeads (App.searchQuery s) (App.pitchTone s)
              (App.pitchLength s) (App.language s)).
Proof.
  intros Hq. unfold App.handleSearchLeads.
  apply trim_not_blank in Hq. by rewrite Hq.
Qed.

(** Pressing Enter twice in the search box sends one request. *)
Example enter_twice_dispatches_once :
  map App.call
    (App.in_flight
       (App.run API_KEY App.start
          [ App.UI (App.ClickMode SEARCH);
            App.UI (App.ChangeSearchQuery (lit "Bakeries in Brooklyn"));
            App.UI (App.KeyDownSearch App.Enter);
            App.UI (App.KeyDownSearch App.Enter) ]))
  = [ App.searchBusinessLeads (lit "Bakeries in Brooklyn") TONE_STANDARD
        LENGTH_STANDARD English ].
Proof. reflexivity. Qed.

End BusyFlag.

(** C2. At most one request is in flight in a session.  In every form
    state whose busy flag is up, no event of the form dispatches a
    request, whichever element it comes from: the three submit buttons
    and the search box, Enter key included, are disabled by the flag.
    Hence along every sequence of form events and settling requests from
    the initial state, at most one request is in flight. *)
Theorem one_request_in_flight (API_KEY : option jstring) :
  (forall (s : App.State) (ev : App.UIEvent),
     isLoading (App.analysisState s) = true ->
     App.dispatched (App.on_event API_KEY s ev) = None) /\
  (forall es : list App.Event,
     (length (App.in_flight (App.run API_KEY App.start es)) <= 1)%nat).
Proof.
  split.
  - intros s ev Hl. by apply loading_blocks_dispatch.
  - intros es. refine (proj2 (one_in_flight_run API_KEY es App.start _)).
    split; [done | simpl; lia].
Qed.

Lemma one_request_in_flight_witness :
  App.dispatched
    (App.on_event (Some (lit "key")) Sample.searching
       (App.KeyDownSearch App.Enter)) = None /\
  (length
     (App.in_flight
        (App.run (Some (lit "key")) App.start
           [ App.UI (App.ClickMode SEARCH);
             App.UI (App.ChangeSearchQuery (lit "Bakeries in Brooklyn"));
             App.UI (App.KeyDownSearch App.Enter);
             App.UI (App.KeyDownSearch App.Enter);
             App.UI App.ClickSearch ])) <= 1)%nat.
Proof.
  split.
  - exact (proj1 (one_request_in_flight (Some (lit "key")))
             Sample.searching (App.KeyDownSearch App.Enter) eq_refl).
  - exact (proj2 (one_request_in_flight (Some (lit "key"))) _).
Defined.

(** ** Voice dictation *)

Lemma collect_transcripts rs interim final :
  App.collect rs (interim, final) =
    (interim ++ concat (map (fun r => App.transcript (App.item0 r))
                          (filter (fun r => App.isFinal r = false) rs)),
     final ++ concat (map (fun r => App.transcript (App.item0 r))
                        (filter (fun r => App.isFinal r = true) rs))).
Proof.
  revert interim final. induction rs as [|r rs IH]; intros interim final.
  - simpl. by rewrite !app_nil_r.
  - simpl. destruct (App.isFinal r) eqn:Hf.
    + rewrite IH. rewrite filter_cons_False, filter_cons_True by congruence.
      simpl. by rewrite <- app_assoc.
    + rewrite IH. rewrite filter_cons_True, filter_cons_False by congruence.
      simpl. by rewrite <- app_assoc.
Qed.

Lemma separator_spec (prev : jstring) :
  (if (0 <? length prev)%nat && negb (endsWith_space prev) then [SP] else [])
  = Spec.separator prev.
Proof.
  unfold Spec.separator, endsWith_space.
  destruct (last prev) as [c|] eqn:Hl.
  - assert (0 < length prev)%nat as Hlen.
    { destruct prev; [discriminate | simpl; lia]. }
    apply Nat.ltb_lt in Hlen. rewrite Hlen. simpl.
    destruct (N.eqb_spec c SP) as [->|Hne].
    + by rewrite bool_decide_eq_true_2.
    + by rewrite bool_decide_eq_false_2.
  - apply last_None in Hl. by subst.
Qed.

Lemma separator_space (prev : jstring) :
  Spec.separator prev = [SP] <-> prev <> [] /\ last prev <> Some SP.
Proof.
  unfold Spec.separator. destruct (last prev) as [c|] eqn:E.
  - assert (prev <> []) as Hne by (by intros ->).
    case_bool_decide as Hc; split.
    + discriminate.
    + intros [_ Hl]. congruence.
    + intros _. split; [exact Hne | congruence].
    + reflexivity.
  - apply last_None in E. subst prev. split; [discriminate | by intros [? _]].
Qed.

Lemma separator_none (prev : jstring) :
  Spec.separator prev = [] <-> prev = [] \/ last prev = Some SP.
Proof.
  unfold Spec.separator. destruct (last prev) as [c|] eqn:E.
  - assert (prev <> []) as Hne by (by intros ->).
    case_bool_decide as Hc; split.
    + intros _. right. by subst c.
    + reflexivity.
    + discriminate.
    + intros [Hnil | Hl]; [done | congruence].
  - apply last_None in E. split; [by left | reflexivity].
Qed.

Lemma onresult_description (event : App.SpeechRecognitionEvent) (s : App.State) :
  App.auditDescription (App.onresult event s) =
    match Spec.final_transcript event with
    | [] => App.auditDescription s
    | final => App.auditDescription s
                 ++ Spec.separator (App.auditDescription s) ++ final
    end.
Proof.
  unfold App.onresult, Spec.final_transcript, Spec.final_results.
  rewrite collect_transcripts. simpl.
  destruct (concat _) as [|c f]; simpl; [done|].
  by rewrite separator_spec.
Qed.

Lemma final_results_finals_only (event : App.SpeechRecognitionEvent) :
  Spec.final_results (Spec.finals_only event) = Spec.final_results event.
Proof.
  unfold Spec.final_results at 1. simpl. rewrite drop_0.
  unfold Spec.final_results.
  induction (drop _ _) as [|r rs IH]; [done|].
  destruct (App.isFinal r) eqn:Hf.
  - rewrite filter_cons_True by done. rewrite filter_cons_True by done.
    by rewrite IH.
  - by rewrite filter_cons_False by congruence.
Qed.

Lemma onresult_final_transcript (e1 e2 : App.SpeechRecognitionEvent) s :
  Spec.final_transcript e1 = Spec.final_transcript e2 ->
  App.onresult e1 s = App.onresult e2 s.
Proof.
  unfold Spec.final_transcript, Spec.final_results, App.onresult.
  rewrite !collect_transcripts. simpl. by intros ->.
Qed.

(** C10. Dictation only extends the audit description.  On every
    recognition result event the previous description is a prefix of the
    new one; interim results change nothing; and a non-empty final
    transcript is appended behind one space, which is left out when the
    description is empty or already ends in a space. *)
Theorem dictation_extends_description
    (event : App.SpeechRecognitionEvent) (s : App.State) :
  let prev := App.auditDescription s in
  let next := App.auditDescription (App.onresult event s) in
  prev `prefix_of` next /\
  App.onresult event s = App.onresult (Spec.finals_only event) s /\
  (Spec.final_transcript event = [] -> App.onresult event s = s) /\
  (Spec.final_transcript event <> [] ->
   next = prev ++ Spec.separator prev ++ Spec.final_transcript event) /\
  (Spec.separator prev = [SP] <-> prev <> [] /\ last prev <> Some SP) /\
  (Spec.separator prev = [] <-> prev = [] \/ last prev = Some SP).
Proof.
  intros prev next. subst prev next.
  split; [|split; [|split; [|split; [|split]]]].
  - rewrite onresult_description.
    destruct (Spec.final_transcript event); [done|]. by eexists.
  - apply onresult_final_transcript. unfold Spec.final_transcript.
    by rewrite final_results_finals_only.
  - unfold Spec.final_transcript, Spec.final_results, App.onresult.
    rewrite collect_transcripts. simpl. by intros ->.
  - intros Hne. rewrite onresult_description.
    by destruct (Spec.final_transcript event).
  - apply separator_space.
  - apply separator_none.
Qed.

Lemma dictation_extends_description_witness :
  App.auditDescription (App.onresult Sample.dictation Sample.audit_form)
  = lit "We schedule via text messages invoices are manual".
Proof.
  pose proof (dictation_extends_description Sample.dictation Sample.audit_form)
    as (_ & _ & _ & Happend & _ & _).
  rewrite Happend; [reflexivity | discriminate].
Defined.

(** ** The result panel *)

(** C5, as the code has it. The component renders exactly one of its
    four views: the loading view when loading, whatever the error and
    the result; otherwise the error view when the error is a non-empty
    text, whatever the result; otherwise the placeholder when the result
    is null or empty; otherwise the result view. *)
Theorem display_states_exclusive (p : AnalysisResult.Props) :
  (AnalysisResult.isLoading p = true ->
   AnalysisResult.render p = AnalysisResult.LoadingView) /\
  (AnalysisResult.isLoading p = false ->
   truthy (AnalysisResult.error p) = true ->
   exists m, AnalysisResult.error p = Some m /\
             AnalysisResult.render p = AnalysisResult.ErrorView m) /\
  (AnalysisResult.isLoading p = false ->
   truthy (AnalysisResult.error p) = false ->
   truthy (AnalysisResult.result p) = false ->
   AnalysisResult.render p = AnalysisResult.PlaceholderView) /\
  (AnalysisResult.isLoading p = false ->
   truthy (AnalysisResult.error p) = false ->
   truthy (AnalysisResult.result p) = true ->
   exists r, AnalysisResult.result p = Some r /\
             AnalysisResult.render p = AnalysisResult.ResultView r).
Proof.
  unfold AnalysisResult.render.
  destruct (AnalysisResult.isLoading p),
    (AnalysisResult.error p) as [[|c m]|],
    (AnalysisResult.result p) as [[|d r]|];
    simpl; repeat split; intros; try done; by eexists.
Qed.

Lemma display_states_exclusive_witness :
  exists m,
    Some (lit "Search failed: 429 quota exceeded") = Some m /\
    AnalysisResult.render
      {| AnalysisResult.result := Some (lit "stale");
         AnalysisResult.groundingMetadata := None;
         AnalysisResult.isLoading := false;
         AnalysisResult.error := Some (lit "Search failed: 429 quota exceeded");
         AnalysisResult.mode := SEARCH;
         AnalysisResult.language := English |}
    = AnalysisResult.ErrorView m.
Proof.
  exact (proj1 (proj2 (display_states_exclusive
           {| AnalysisResult.result := Some (lit "stale");
              AnalysisResult.groundingMetadata := None;
              AnalysisResult.isLoading := false;
              AnalysisResult.error :=
                Some (lit "Search failed: 429 quota exceeded");
              AnalysisResult.mode := SEARCH;
              AnalysisResult.language := English |})) eq_refl eq_refl).
Defined.

(** C5, as stated, fails: an error that is the empty text is not null,
    yet the component does not render the error view for it; and a
    result that is the empty text is not null, yet the component renders
    the placeholder for it. *)
Lemma empty_error_is_not_displayed :
  let p := {| AnalysisResult.result := Some [];
              AnalysisResult.groundingMetadata := None;
              AnalysisResult.isLoading := false;
              AnalysisResult.error := Some [];
              AnalysisResult.mode := IMAGE;
              AnalysisResult.language := English |} in
  AnalysisResult.isLoading p = false /\
  AnalysisResult.error p <> None /\
  AnalysisResult.result p <> None /\
  AnalysisResult.render p = AnalysisResult.PlaceholderView.
Proof. by repeat split. Qed.

(** The text of the export, field by field. *)
Lemma quoted_quoted_field (s : jstring) :
  AnalysisResult.quoted s = Spec.quoted_field s.
Proof.
  unfold AnalysisResult.quoted, Spec.quoted_field, escape_quotes, DQ.
  do 2 f_equal. induction s as [|c s IH]; simpl; [done|].
  rewrite IH. f_equal. destruct (N.eqb_spec c 34).
  - by rewrite bool_decide_eq_true_2.
  - by rewrite bool_decide_eq_false_2.
Qed.

Lemma or_else_default (v : option jstring) : or_else v [] = default [] v.
Proof. by destruct v as [[|c s]|]. Qed.

Lemma append_chunk_row (csv : jstring) (chunk : GroundingChunk) :
  AnalysisResult.append_chunk csv chunk =
    csv ++ match maps chunk with
           | Some m => Spec.lead_row m
           | None => []
           end.
Proof.
  unfold AnalysisResult.append_chunk, Spec.lead_row.
  destruct (maps chunk) as [m|]; [|by rewrite app_nil_r].
  rewrite !quoted_quoted_field, !or_else_default.
  unfold join_comma. simpl. f_equal.
  repeat (rewrite <- ?app_assoc; simpl; f_equal).
Qed.

Lemma fold_append_chunk (chunks : list GroundingChunk) (csv : jstring) :
  fold_left AnalysisResult.append_chunk chunks csv =
    csv ++ concat (map Spec.lead_row (omap maps chunks)).
Proof.
  revert csv. induction chunks as [|chunk chunks IH]; intros csv; simpl.
  - by rewrite app_nil_r.
  - rewrite IH, append_chunk_row.
    destruct (maps chunk) as [m|]; simpl.
    + by rewrite <- app_assoc.
    + by rewrite app_nil_r.
Qed.

Lemma hasMapData_map_chunks (p : AnalysisResult.Props) :
  AnalysisResult.hasMapData p = true <-> Spec.map_chunks p <> [].
Proof.
  unfold AnalysisResult.hasMapData, Spec.map_chunks.
  destruct (AnalysisResult.groundingMetadata p) as [gm|]; simpl; [|done].
  destruct (groundingChunks gm) as [chunks|]; simpl; [|done].
  induction chunks as [|chunk chunks IH]; simpl; [done|].
  destruct (maps chunk) as [m|]; simpl.
  - done.
  - exact IH.
Qed.

(** A quoted field reads back as the text it was made from. *)
Lemma unquote_quoted_field (s : jstring) :
  Spec.unquote (Spec.quoted_field s) = Some s.
Proof.
  unfold Spec.quoted_field. simpl.
  induction s as [|c s IH]; simpl; [done|].
  case_bool_decide as Hc.
  - subst c. simpl. by rewrite IH.
  - simpl. apply N.eqb_neq in Hc. rewrite Hc. by rewrite IH.
Qed.

(** C6. The export is not always well-formed CSV: the name and the
    address of a map chunk are written in double quotes with embedded
    double quotes doubled, but the link, on the same row, is written as
    it is.  With a comma in the link the row reads back as four fields
    instead of three, and with a double quote in the link a CSV reader
    rejects the text. *)
Theorem export_writes_link_raw :
  let place link :=
    {| web := None;
       maps := Some {| title := Some (lit "Cafe");
                       address := Some (lit "1 Main St");
                       googleMapsUriString := Some link |} |} in
  let props link :=
    {| AnalysisResult.result := Some (lit "### Leads");
       AnalysisResult.groundingMetadata :=
         Some {| groundingChunks := Some [place link] |};
       AnalysisResult.isLoading := false;
       AnalysisResult.error := None;
       AnalysisResult.mode := SEARCH;
       AnalysisResult.language := English |} in
  let now := lit "2026-01-01T00:00:00.000Z" in
  let header := [lit "Business Name"; lit "Address"; lit "Google Maps Link"] in
  AnalysisResult.handleExportCSV now
    (props (lit "https://maps.google.com/?q=40.7,-74.0"))
  = Some (lit "Business Name,Address,Google Maps Link" ++ LF
          ++ DQ ++ lit "Cafe" ++ DQ ++ lit ","
          ++ DQ ++ lit "1 Main St" ++ DQ ++ lit ","
          ++ lit "https://maps.google.com/?q=40.7,-74.0" ++ LF) /\
  (AnalysisResult.handleExportCSV now
     (props (lit "https://maps.google.com/?q=40.7,-74.0")) ≫= Csv.parse)
  = Some [ header;
           [ lit "Cafe"; lit "1 Main St";
             lit "https://maps.google.com/?q=40.7"; lit "-74.0" ] ] /\
  (AnalysisResult.handleExportCSV now
     (props (lit "https://maps.google.com/?q=" ++ DQ ++ lit "cafe" ++ DQ))
     ≫= Csv.parse)
  = None.
Proof. repeat split; vm_compute; reflexivity. Qed.

(** * Further properties of the code *)

(** ** Reading the image file *)

Lemma split_comma_aux_segment (a cur rest : jstring) :
  Forall (fun c => c <> 44) a ->
  split_comma_aux cur (a ++ rest) = split_comma_aux (rev a ++ cur) rest.
Proof.
  intros Ha. revert cur. induction Ha as [|c a Hc Ha IH]; intros cur; [done|].
  simpl. apply N.eqb_neq in Hc. rewrite Hc, IH. by rewrite <- app_assoc.
Qed.

Lemma split_comma_aux_last (a cur : jstring) :
  Forall (fun c => c <> 44) a ->
  split_comma_aux cur a = [rev cur ++ a].
Proof.
  intros Ha. rewrite <- (app_nil_r a) at 1.
  rewrite split_comma_aux_segment by done. simpl.
  by rewrite rev_app_distr, rev_involutive.
Qed.

(** X1. The image part sent to the vendor carries the text between the
    first and the second comma of the data URL the reader produced, and
    the MIME type of the file: for a URL made of a header without comma,
    a comma and a payload without comma, the data is the payload.  A URL
    without any comma still resolves, with undefined data. *)
Theorem data_url_payload
    (reader : Service.FileReader) (f : File) (header payload : jstring) :
  Forall (fun c => c <> 44) header ->
  Forall (fun c => c <> 44) payload ->
  (reader f = Service.Loaded (header ++ [44] ++ payload) ->
   Service.fileToGenerativePart reader f
     = Ok {| Service.data := Some payload;
             Service.mimeType := file_type f |}) /\
  (reader f = Service.Loaded header ->
   Service.fileToGenerativePart reader f
     = Ok {| Service.data := None; Service.mimeType := file_type f |}).
Proof.
  intros Hh Hp. unfold Service.fileToGenerativePart, split_comma. split.
  - intros ->. rewrite split_comma_aux_segment by done. simpl.
    by rewrite split_comma_aux_last.
  - intros ->. by rewrite split_comma_aux_last.
Qed.

Lemma data_url_payload_witness :
  Service.fileToGenerativePart Sample.reads Sample.photo
  = Ok {| Service.data := Some (lit "AAAA");
          Service.mimeType := lit "image/jpeg" |}.
Proof.
  refine (proj1 (data_url_payload Sample.reads Sample.photo
                   (lit "data:image/jpeg;base64") (lit "AAAA") _ _) eq_refl);
    vm_compute; repeat constructor; discriminate.
Defined.

(** ** Outcomes of a request *)

Lemma lit_cons_nonempty (prefix message : jstring) :
  prefix <> [] -> prefix ++ message <> [].
Proof. by destruct prefix. Qed.

Lemma rethrow_outcome {A} (body : Result A) (prefix fallback : jstring) e :
  try_catch body (Service.rethrow prefix fallback) = Throw e ->
  exists e0, body = Throw e0 /\
    e = ErrorObject match e0 with
                    | ErrorObject message => prefix ++ message
                    | NonError _ => fallback
                    end.
Proof.
  destruct body as [a|e0]; simpl; [done|].
  destruct e0; simpl; intros [= <-]; by eexists.
Qed.

Lemma perform_outcome
    (reader : Service.FileReader) (ai : Service.GenAI) (c : App.Call) :
  (exists r, App.perform reader ai c = Ok r /\ Service.text r <> []) \/
  (exists m, App.perform reader ai c = Throw (ErrorObject m) /\ m <> [] /\
             (m = Spec.failure_fallback c \/
              exists message, m = Spec.failure_prefix c ++ message)).
Proof.
  destruct (App.perform reader ai c) as [r|e] eqn:Hp.
  - left. exists r. split; [done|].
    destruct c; simpl in Hp.
    + apply analyzeBusinessImage_Ok in Hp as (? & ? & _ & _ & ->).
      by apply or_else_nonempty.
    + apply searchBusinessLeads_Ok in Hp as (? & _ & ->).
      by apply or_else_nonempty.
    + apply analyzeBusinessGap_Ok in Hp as (? & _ & ->).
      by apply or_else_nonempty.
  - right. destruct c; simpl in Hp;
      apply rethrow_outcome in Hp as (e0 & _ & ->);
      eexists; (split; [reflexivity|]); destruct e0; simpl;
      (split; [done|]); eauto.
Qed.

(** X2. A request function either returns a response whose text is not
    empty, or throws an [Error] whose message is not empty: the prefix
    of the function with the original message, or its fallback.  It
    never throws anything else, so the fallback message of the submit
    handlers is never used. *)
Theorem request_outcomes
    (reader : Service.FileReader) (ai : Service.GenAI) (c : App.Call) :
  (exists r, App.perform reader ai c = Ok r /\ Service.text r <> []) \/
  (exists m, App.perform reader ai c = Throw (ErrorObject m) /\ m <> [] /\
             (m = Spec.failure_fallback c \/
              exists message, m = Spec.failure_prefix c ++ message)).
Proof. apply perform_outcome. Qed.

(** X3. When the image file cannot be read, the vendor is not called:
    whatever the vendor would answer, the image analysis fails with the
    fallback message of the function. *)
Theorem unreadable_file_skips_vendor
    (reader : Service.FileReader) (ai : Service.GenAI) (f : File)
    (n : jstring) (t : PitchTone) (l : PitchLength) (lang : OutputLanguage) :
  reader f = Service.ReadFailed ->
  Service.analyzeBusinessImage reader ai f n t l lang
    = Throw (ErrorObject (lit "An unexpected error occurred during analysis."))
  /\ forall ai' : Service.GenAI,
       Service.analyzeBusinessImage reader ai' f n t l lang
       = Service.analyzeBusinessImage reader ai f n t l lang.
Proof.
  intros Hr.
  unfold Service.analyzeBusinessImage, Service.analyzeBusinessImage_try,
    Service.fileToGenerativePart.
  by rewrite Hr.
Qed.

Lemma unreadable_file_skips_vendor_witness :
  Service.analyzeBusinessImage Sample.read_fails Sample.quota_exceeded
    Sample.photo (lit "Joe's Pizza") PAIN_FOCUSED SHORT English
  = Throw (ErrorObject (lit "An unexpected error occurred during analysis.")).
Proof.
  exact (proj1 (unreadable_file_skips_vendor Sample.read_fails
                  Sample.quota_exceeded Sample.photo (lit "Joe's Pizza")
                  PAIN_FOCUSED SHORT English eq_refl)).
Defined.

(** ** What [trim] keeps *)

Lemma trimStart_split (s : jstring) :
  exists w, s = w ++ trimStart s /\ Spec.blank w.
Proof.
  induction s as [|c s (w & Hs & Hw)]; simpl.
  - exists []. split; [done | constructor].
  - destruct (is_white c) eqn:Hc.
    + exists (c :: w). split; [by rewrite Hs at 1 | by constructor].
    + exists []. split; [done | constructor].
Qed.

Lemma trimStart_head (s r : jstring) (c : N) :
  trimStart s = c :: r -> is_white c = false.
Proof.
  induction s as [|d s IH]; simpl; [done|].
  destruct (is_white d) eqn:Hd; [done|]. by intros [= <- _].
Qed.

Lemma trimEnd_split (s : jstring) :
  exists w, s = trimEnd s ++ w /\ Spec.blank w.
Proof.
  unfold trimEnd. destruct (trimStart_split (rev s)) as (w & Hs & Hw).
  exists (rev w). split; [|by apply blank_rev].
  rewrite <- (rev_involutive s), Hs at 1. by rewrite rev_app_distr.
Qed.

Lemma trimEnd_last (s : jstring) (c : N) :
  last (trimEnd s) = Some c -> is_white c = false.
Proof.
  unfold trimEnd. destruct (trimStart (rev s)) as [|d r] eqn:E; [done|].
  simpl. rewrite last_snoc. intros [= <-]. by apply trimStart_head in E.
Qed.

(** [trim] removes blank text from both ends and nothing else; what is
    left starts and ends with a character that is not white space. *)
Lemma trim_split (s : jstring) :
  exists w1 w2,
    s = w1 ++ trim s ++ w2 /\ Spec.blank w1 /\ Spec.blank w2 /\
    (forall c r, trim s = c :: r -> is_white c = false) /\
    (forall c, last (trim s) = Some c -> is_white c = false).
Proof.
  unfold trim.
  destruct (trimStart_split s) as (w1 & Hs & Hw1).
  destruct (trimEnd_split (trimStart s)) as (w2 & Ht & Hw2).
  exists w1, w2. split; [by rewrite <- Ht|]. do 2 (split; [done|]). split.
  - intros c r Hc. rewrite Hc in Ht.
    destruct (trimStart s) as [|d t] eqn:E; [done|].
    injection Ht as -> _. by apply trimStart_head in E.
  - apply trimEnd_last.
Qed.

(** ** The form and the analysis state *)

Lemma handler_settles (h : Spec.Handler) (s s' : App.State) c k :
  Spec.handler h s = App.Await s' c k ->
  App.analysisState s' = App.loading /\ Shape.settles k.
Proof.
  destruct h; simpl.
  - unfold App.handleAnalyzeImage. destruct (App.selectedImage s); [|done].
    destruct (_ || _); [done|]. intros [= <- _ <-].
    split; [done|]. by intros [r|[m|v]] now.
  - unfold App.handleSearchLeads. destruct (is_empty _); [done|].
    intros [= <- _ <-]. split; [done|]. by intros [r|[m|v]] now.
  - unfold App.handleSelfAudit. destruct (is_empty _); [done|].
    intros [= <- _ <-]. split; [done|]. by intros [r|[m|v]] now.
Qed.

Lemma trim_nonempty_nonempty (s : jstring) :
  is_empty (trim s) = false -> is_empty s = false.
Proof. by destruct s. Qed.

Lemma handleAnalyzeImage_named (s : App.State) (img : ImageFile) :
  App.selectedImage s = Some img ->
  is_empty (trim (App.businessName s)) = false ->
  exists k,
    App.handleAnalyzeImage s =
      App.Await (App.setAnalysisState (fun _ => App.loading) s)
        (App.analyzeBusinessImage (file img) (trim (App.businessName s))
           (App.pitchTone s) (App.pitchLength s) (App.language s)) k.
Proof.
  intros Hi Ht. unfold App.handleAnalyzeImage.
  rewrite Hi, Ht, (trim_nonempty_nonempty _ Ht). simpl. by eexists.
Qed.

Lemma onresult_analysisState event s :
  App.analysisState (App.onresult event s) = App.analysisState s.
Proof.
  unfold App.onresult. destruct (App.collect _ _) as [i f].
  by destruct (negb (is_empty f)).
Qed.

Lemma on_event_effect
    (API_KEY : option jstring) (s : App.State) (ev : App.UIEvent) :
  match App.on_event API_KEY s ev with
  | App.Done s' => App.analysisState s' = App.analysisState s
  | App.Await s' c k =>
      App.isAnalyzing s = false /\
      App.analysisState s' = App.loading /\
      Shape.settles k
  end.
Proof.
  destruct (App.on_event API_KEY s ev) as [s'|s' c k] eqn:He.
  - destruct ev; simpl in He; unfold App.deliver in He;
      try (repeat match type of He with
                  | (if ?b then _ else _) = _ => destruct b
                  end;
           injection He as <-;
           first [reflexivity | apply onresult_analysisState]).
    + destruct (_ && _) eqn:Hen; [|by injection He as <-].
      apply andb_true_iff in Hen as [_ Hen]. apply negb_true_iff in Hen.
      unfold App.analyze_button_disabled in Hen.
      apply orb_false_iff in Hen as [Hen _].
      apply orb_false_iff in Hen as [Hen _].
      apply orb_false_iff in Hen as [Hi Ht].
      apply negb_false_iff, bool_decide_eq_true in Hi as [img Hi].
      destruct (handleAnalyzeImage_named s img Hi Ht) as [k Hk]. congruence.
    + destruct (_ && _); [|by injection He as <-].
      destruct (App.jstring_eqb key App.Enter); [|by injection He as <-].
      unfold App.handleSearchLeads in He.
      destruct (is_empty _); [by injection He as <- | done].
    + destruct (_ && _); [|by injection He as <-].
      unfold App.handleSearchLeads in He.
      destruct (is_empty _); [by injection He as <- | done].
    + destruct (_ && _); [|by injection He as <-].
      unfold App.handleSelfAudit in He.
      destruct (is_empty _); [by injection He as <- | done].
  - pose proof (on_event_Await API_KEY s s' ev c k He) as [Hwas _].
    split; [done|].
    destruct ev; simpl in He; unfold App.deliver in He;
      repeat match type of He with
             | (if ?b then _ else _) = _ => destruct b; try discriminate
             end; try discriminate.
    + exact (handler_settles Spec.AnalyzeImage _ _ _ _ He).
    + exact (handler_settles Spec.SearchLeads _ _ _ _ He).
    + exact (handler_settles Spec.SearchLeads _ _ _ _ He).
    + exact (handler_settles Spec.SelfAudit _ _ _ _ He).
Qed.

(** X4. A form event leaves the analysis state as it is unless it
    dispatches a request; when it does, the busy flag was down, the
    analysis state becomes the loading state, and the code resumed when
    the request settles stores exactly the response or the message of
    the error.  In particular the validation message of the image
    handler cannot be produced from the form: its button is disabled
    under the test that guards the message. *)
Theorem form_event_effect
    (API_KEY : option jstring) (s : App.State) (ev : App.UIEvent) :
  match App.on_event API_KEY s ev with
  | App.Done s' => App.analysisState s' = App.analysisState s
  | App.Await s' c k =>
      App.isAnalyzing s = false /\
      App.analysisState s' = App.loading /\
      Shape.settles k
  end.
Proof. apply on_event_effect. Qed.

(** X5. The business name sent with an image request is the name of the
    form without the blank text around it: it is not empty, and it
    starts and ends with a character that is not white space. *)
Theorem image_request_name_is_trimmed
    (s s' : App.State) (c : App.Call)
    (k : Result Service.AnalysisResponse -> App.State -> App.State) :
  App.handleAnalyzeImage s = App.Await s' c k ->
  exists img name w1 w2,
    App.selectedImage s = Some img /\
    c = App.analyzeBusinessImage (file img) name
          (App.pitchTone s) (App.pitchLength s) (App.language s) /\
    App.businessName s = w1 ++ name ++ w2 /\
    Spec.blank w1 /\ Spec.blank w2 /\
    (exists d r, name = d :: r /\ is_white d = false) /\
    (exists d, last name = Some d /\ is_white d = false).
Proof.
  unfold App.handleAnalyzeImage.
  destruct (App.selectedImage s) as [img|]; [|done].
  destruct (is_empty (App.businessName s) || false
            || is_empty (trim (App.businessName s))) eqn:Hb; [done|].
  intros [= _ <- _].
  apply orb_false_iff in Hb as [_ Ht].
  destruct (trim_split (App.businessName s))
    as (w1 & w2 & Hs & Hw1 & Hw2 & Hhead & Hlast).
  exists img, (trim (App.businessName s)), w1, w2.
  do 5 (split; [done|]).
  destruct (trim (App.businessName s)) as [|d r] eqn:E; [done|]. split.
  - exists d, r. split; [done|]. by apply (Hhead d r).
  - destruct (last (d :: r)) as [e|] eqn:El.
    + exists e. split; [done|]. by apply Hlast.
    + by apply last_None in El.
Qed.

Lemma image_request_name_is_trimmed_witness :
  exists img name w1 w2,
    App.selectedImage Sample.image_form = Some img /\
    App.analyzeBusinessImage Sample.photo (lit "Joe's Pizza") TONE_STANDARD
      LENGTH_STANDARD English
    = App.analyzeBusinessImage (file img) name
        (App.pitchTone Sample.image_form) (App.pitchLength Sample.image_form)
        (App.language Sample.image_form) /\
    App.businessName Sample.image_form = w1 ++ name ++ w2 /\
    Spec.blank w1 /\ Spec.blank w2 /\
    (exists d r, name = d :: r /\ is_white d = false) /\
    (exists d, last name = Some d /\ is_white d = false).
Proof.
  exact (image_request_name_is_trimmed Sample.image_form _ _ _ eq_refl).
Defined.

(** X6. Without an API key the three submit buttons do nothing, but the
    Enter key in the search box is not held back by the missing key: it
    sends the search request as soon as the query is not blank. *)
Theorem missing_key_stops_buttons_only
    (API_KEY : option jstring) (s : App.State) :
  truthy API_KEY = false ->
  App.on_event API_KEY s App.ClickAnalyze = App.Done s /\
  App.on_event API_KEY s App.ClickSearch = App.Done s /\
  App.on_event API_KEY s App.ClickSelfAudit = App.Done s /\
  (App.mode s = SEARCH -> App.isAnalyzing s = false ->
   ~ Spec.blank (App.searchQuery s) ->
   App.dispatched (App.on_event API_KEY s (App.KeyDownSearch App.Enter))
   = Some (App.searchBusinessLeads (App.searchQuery s) (App.pitchTone s)
             (App.pitchLength s) (App.language s))).
Proof.
  intros Hk. simpl.
  unfold App.deliver, App.analyze_button_disabled,
    App.search_button_disabled, App.audit_button_disabled.
  rewrite Hk. simpl. rewrite !orb_true_r, !andb_false_r.
  repeat split.
  intros Hm Hl Hq. unfold App.mode_is, App.search_input_disabled.
  rewrite Hl, bool_decide_eq_true_2 by done. simpl.
  unfold App.handleSearchLeads. apply trim_not_blank in Hq. by rewrite Hq.
Qed.

Lemma missing_key_stops_buttons_only_witness :
  App.on_event None Sample.search_form App.ClickSearch
    = App.Done Sample.search_form /\
  App.dispatched
    (App.on_event None Sample.search_form (App.KeyDownSearch App.Enter))
  = Some (App.searchBusinessLeads (lit "Bakeries in Brooklyn") TONE_STANDARD
            LENGTH_STANDARD English).
Proof.
  pose proof (missing_key_stops_buttons_only None Sample.search_form eq_refl)
    as (_ & Hclick & _ & Henter).
  split; [exact Hclick|]. apply Henter; [reflexivity | reflexivity |].
  intros Hb. apply trim_empty_iff in Hb. discriminate Hb.
Defined.

Lemma loading_freezes
    (API_KEY : option jstring) (s : App.State) (ev : App.UIEvent) :
  App.isAnalyzing s = true ->
  exists s',
    App.on_event API_KEY s ev = App.Done s' /\
    Shape.request_inputs s' = Shape.request_inputs s /\
    App.analysisState s' = App.analysisState s.
Proof.
  intros Hl.
  destruct ev; simpl;
    unfold App.deliver, App.analyze_button_disabled,
      App.search_button_disabled, App.audit_button_disabled,
      App.search_input_disabled, App.business_name_disabled,
      App.uploader_disabled, App.select_disabled;
    rewrite ?Hl; rewrite ?orb_true_r, ?orb_true_l, ?andb_false_r; simpl;
    try (by eexists);
    try (destruct (_ && _); by eexists).
  - destruct (_ && _), (App.isListening s); by eexists.
  - eexists. split; [done|]. split; [|apply onresult_analysisState].
    unfold App.onresult. destruct (App.collect _ _) as [i f].
    by destruct (negb (is_empty f)).
Qed.

(** X7. While a request is loading, no form event changes what an image
    or search request is built from (the selected image, the business
    name, the pitch tone, the pitch length and the language) nor the
    analysis state: every event returns at once. *)
Theorem loading_freezes_inputs
    (API_KEY : option jstring) (s : App.State) (ev : App.UIEvent) :
  App.isAnalyzing s = true ->
  exists s',
    App.on_event API_KEY s ev = App.Done s' /\
    Shape.request_inputs s' = Shape.request_inputs s /\
    App.analysisState s' = App.analysisState s.
Proof. apply loading_freezes. Qed.

Lemma loading_freezes_inputs_witness :
  exists s',
    App.on_event (Some (lit "key")) Sample.searching
      (App.ChangePitchTone PAIN_FOCUSED) = App.Done s' /\
    Shape.request_inputs s' = Shape.request_inputs Sample.searching /\
    App.analysisState s' = App.analysisState Sample.searching.
Proof.
  exact (loading_freezes_inputs (Some (lit "key")) Sample.searching
           (App.ChangePitchTone PAIN_FOCUSED) eq_refl).
Defined.

(** The search query is not among the frozen inputs: the suggestion
    buttons stay enabled while a search is loading. *)
Example suggestion_changes_query_while_loading :
  App.on_event (Some (lit "key")) Sample.searching
    (App.ClickSuggestion App.Dentists)
  = App.Done (App.setSearchQuery (lit "Dentists in Chicago") Sample.searching).
Proof. reflexivity. Qed.

(** ** The session *)

Section Steady.

Variable API_KEY : option jstring.

Lemma steady_start : Shape.steady App.start.
Proof.
  split; [by left|]. split; [by split|]. split; [simpl; lia | constructor].
Qed.

Lemma steady_step (ss : App.Session) (e : App.Event) :
  Shape.steady ss -> Shape.steady (App.step API_KEY ss e).
Proof.
  intros (Hshape & Hbusy & Hone & Hres).
  destruct e as [ev|i reader ai]; simpl.
  - pose proof (on_event_effect API_KEY (App.app ss) ev) as He.
    destruct (App.on_event API_KEY (App.app ss) ev) as [s'|s' c k].
    + unfold Shape.steady, App.isAnalyzing in *. simpl. by rewrite He.
    + destruct He as (Hwas & Hnow & Hk).
      assert (App.in_flight ss = []) as Hnil.
      { destruct (App.in_flight ss) as [|p [|q l]]; simpl in *; [done| |lia].
        destruct Hbusy as [_ Hb]. rewrite Hb in Hwas; done. }
      unfold Shape.steady, App.isAnalyzing. simpl. rewrite Hnow, Hnil. simpl.
      split; [by right; left|]. split; [done|]. split; [lia|].
      by repeat constructor.
  - destruct (App.in_flight ss !! i) as [p|] eqn:Hp; [|done].
    destruct (App.in_flight ss) as [|p0 [|p1 l]] eqn:Hf; simpl in *;
      [done| |lia].
    destruct i; [|done]. injection Hp as ->. simpl.
    apply Forall_inv in Hres.
    unfold Shape.steady, App.isAnalyzing. simpl. rewrite Hres.
    destruct (perform_outcome reader ai (App.call p))
      as [(r & -> & Hr)|(m & -> & Hm & _)]; simpl.
    + split; [right; right; left; by eexists _, _|].
      split; [by split|]. split; [lia | constructor].
    + split; [right; right; right; by eexists|].
      split; [by split|]. split; [lia | constructor].
Qed.

Lemma steady_run (es : list App.Event) (ss : App.Session) :
  Shape.steady ss -> Shape.steady (App.run API_KEY ss es).
Proof.
  revert ss. induction es as [|e es IH]; intros ss H; simpl; [done|].
  apply IH. by apply steady_step.
Qed.

Lemma well_shaped_display (s : App.State) :
  Shape.well_shaped (App.analysisState s) ->
  AnalysisResult.render (result_props s) = Shape.display (App.analysisState s).
Proof.
  unfold AnalysisResult.render, Shape.display, result_props. simpl.
  intros [->|[->|[(t & gm & Ht & ->)|(m & Hm & ->)]]]; simpl; try done.
  - by destruct t.
  - by destruct m.
Qed.

Lemma stored_result_nonempty (s : App.State) (r : jstring) :
  Shape.well_shaped (App.analysisState s) ->
  result (App.analysisState s) = Some r -> r <> [].
Proof.
  intros Hs Hr.
  destruct Hs as [Hs|[Hs|[(t & gm & Ht & Hs)|(m & Hm & Hs)]]];
    rewrite Hs in Hr; try discriminate Hr. by injection Hr as <-.
Qed.

End Steady.

Lemma session_state_shape_aux (API_KEY : option jstring) (es : list App.Event) :
  Shape.well_shaped
    (App.analysisState (App.app (App.run API_KEY App.start es))).
Proof. apply (steady_run API_KEY es App.start steady_start). Qed.

(** X8. In every state a session can reach, the analysis state has one
    of four shapes: nothing yet; loading, with no result and no error; a
    result that is not empty, with no error; or an error message that is
    not empty, with no result and no grounding metadata. *)
Theorem session_state_shape (API_KEY : option jstring) (es : list App.Event) :
  Shape.well_shaped
    (App.analysisState (App.app (App.run API_KEY App.start es))).
Proof. apply session_state_shape_aux. Qed.

(** X9. In every state a session can reach, the panel shows the loading
    view exactly while one request is in flight. *)
Theorem loading_view_iff_in_flight
    (API_KEY : option jstring) (es : list App.Event) :
  let ss := App.run API_KEY App.start es in
  AnalysisResult.render (result_props (App.app ss)) = AnalysisResult.LoadingView
  <-> length (App.in_flight ss) = 1%nat.
Proof.
  intros ss.
  destruct (steady_run API_KEY es App.start steady_start)
    as (_ & Hbusy & _ & _).
  fold ss in Hbusy. rewrite <- Hbusy.
  unfold AnalysisResult.render, result_props, App.isAnalyzing. simpl.
  destruct (App.analysisState (App.app ss)) as [l r g e]. simpl.
  destruct l; [done|].
  destruct e as [[|c m]|], r as [[|d r]|]; by split.
Qed.

(** ** The export reads back *)

Section ReadBack.

Import Csv.

Lemma read_quoted_body (a field : jstring) row rows (rest : jstring) :
  read InQuoted field row rows
    (flat_map (fun c => if bool_decide (c = 34) then [34; 34] else [c]) a
     ++ 34 :: rest)
  = read AfterQuote (rev a ++ field) row rows rest.
Proof.
  revert field. induction a as [|c a IH]; intros field; [done|].
  cbn [flat_map]. case_bool_decide as Hc.
  - subst c. cbn [app read N.eqb Pos.eqb]. rewrite IH.
    f_equal. simpl. by rewrite <- app_assoc.
  - apply N.eqb_neq in Hc. cbn [app read]. rewrite Hc, IH.
    f_equal. simpl. by rewrite <- app_assoc.
Qed.

Lemma read_quoted_comma (a : jstring) row rows (rest : jstring) :
  read FieldStart [] row rows (Spec.quoted_field a ++ 44 :: rest)
  = read FieldStart [] (a :: row) rows rest.
Proof.
  unfold Spec.quoted_field. rewrite <- !app_assoc.
  cbn [app read N.eqb Pos.eqb]. rewrite read_quoted_body.
  cbn [read N.eqb Pos.eqb]. by rewrite app_nil_r, rev_involutive.
Qed.

Lemma read_quoted_end (a : jstring) row rows :
  read FieldStart [] row rows (Spec.quoted_field a)
  = Some (rev (rev (a :: row) :: rows)).
Proof.
  unfold Spec.quoted_field.
  cbn [app read N.eqb Pos.eqb]. rewrite read_quoted_body.
  cbn [read]. by rewrite app_nil_r, rev_involutive.
Qed.

Lemma read_plain_body (u field : jstring) row rows (rest : jstring) :
  plain u ->
  read InUnquoted field row rows (u ++ rest)
  = read InUnquoted (rev u ++ field) row rows rest.
Proof.
  intros Hu. revert field.
  induction Hu as [|c u (Hq & Hc & Hl) Hu IH]; intros field; [done|].
  apply N.eqb_neq in Hq, Hc, Hl. cbn [app read]. rewrite Hq, Hc, Hl, IH.
  f_equal. simpl. by rewrite <- app_assoc.
Qed.

Lemma read_plain_comma (u : jstring) row rows (rest : jstring) :
  plain u ->
  read FieldStart [] row rows (u ++ 44 :: rest)
  = read FieldStart [] (u :: row) rows rest.
Proof.
  intros Hu. destruct Hu as [|c u (Hq & Hc & Hl) Hu]; [done|].
  apply N.eqb_neq in Hq, Hc, Hl. cbn [app read]. rewrite Hq, Hc, Hl.
  rewrite read_plain_body by done. cbn [read N.eqb Pos.eqb].
  by rewrite rev_app_distr, rev_involutive.
Qed.

Lemma read_plain_lf (u : jstring) row rows (rest : jstring) :
  plain u ->
  read FieldStart [] row rows (u ++ 10 :: rest)
  = read FieldStart [] [] (rev (u :: row) :: rows) rest.
Proof.
  intros Hu. destruct Hu as [|c u (Hq & Hc & Hl) Hu]; [done|].
  apply N.eqb_neq in Hq, Hc, Hl. cbn [app read]. rewrite Hq, Hc, Hl.
  rewrite read_plain_body by done. cbn [read N.eqb Pos.eqb].
  by rewrite rev_app_distr, rev_involutive.
Qed.

Lemma read_lead_row (m : MapsChunk) rows (rest : jstring) :
  plain (default [] (googleMapsUriString m)) ->
  read FieldStart [] [] rows (Spec.lead_row m ++ rest)
  = read FieldStart [] [] (lead_fields m :: rows) rest.
Proof.
  intros Hu. unfold Spec.lead_row, LF. rewrite <- !app_assoc.
  cbn [app]. rewrite !read_quoted_comma. by rewrite read_plain_lf.
Qed.

Lemma read_lead_rows (ms : list MapsChunk) rows :
  Forall (fun m => plain (default [] (googleMapsUriString m))) ms ->
  read FieldStart [] [] rows (concat (map Spec.lead_row ms))
  = Some (rev rows ++ map lead_fields ms).
Proof.
  intros Hms. revert rows.
  induction Hms as [|m ms Hm Hms IH]; intros rows.
  - simpl. by rewrite app_nil_r.
  - cbn [map concat]. rewrite read_lead_row by done. rewrite IH.
    cbn [rev map]. by rewrite <- app_assoc.
Qed.

Lemma read_lead_header (rest : jstring) :
  read FieldStart [] [] [] (AnalysisResult.lead_header ++ rest)
  = read FieldStart [] []
      [[lit "Business Name"; lit "Address"; lit "Google Maps Link"]] rest.
Proof. reflexivity. Qed.

Lemma read_generic_header (rest : jstring) :
  read FieldStart [] [] [] (AnalysisResult.generic_header ++ rest)
  = read FieldStart [] []
      [[lit "Date"; lit "Type"; lit "Analysis Content"]] rest.
Proof. reflexivity. Qed.

Lemma plain_mode_string (m : AppMode) : plain (AnalysisResult.mode_string m).
Proof. destruct m; vm_compute; repeat constructor; discriminate. Qed.

Lemma export_lead_text (now : jstring) (p : AnalysisResult.Props) (r : jstring) :
  AnalysisResult.result p = Some r -> r <> [] ->
  AnalysisResult.mode p = SEARCH -> Spec.map_chunks p <> [] ->
  AnalysisResult.handleExportCSV now p
  = Some (AnalysisResult.lead_header
          ++ concat (map Spec.lead_row (Spec.map_chunks p))).
Proof.
  intros Hr Hne Hm Hc. unfold AnalysisResult.handleExportCSV. rewrite Hr.
  destruct r as [|c r]; [done|].
  apply hasMapData_map_chunks in Hc.
  rewrite Hc, bool_decide_eq_true_2 by done. cbn [andb].
  by rewrite fold_append_chunk.
Qed.

Lemma export_generic_text (now : jstring) (p : AnalysisResult.Props)
    (r : jstring) :
  AnalysisResult.result p = Some r -> r <> [] ->
  ~ (AnalysisResult.mode p = SEARCH /\ Spec.map_chunks p <> []) ->
  AnalysisResult.handleExportCSV now p
  = Some (AnalysisResult.generic_header ++ now ++ [44]
          ++ AnalysisResult.mode_string (AnalysisResult.mode p) ++ [44]
          ++ Spec.quoted_field r).
Proof.
  intros Hr Hne Hn. unfold AnalysisResult.handleExportCSV. rewrite Hr.
  destruct r as [|c r]; [done|].
  assert (bool_decide (AnalysisResult.mode p = SEARCH)
          && AnalysisResult.hasMapData p = false) as ->.
  { apply not_true_is_false. intros [Hm Hc]%andb_true_iff.
    apply Hn. split; [by apply bool_decide_eq_true in Hm|].
    by apply hasMapData_map_chunks. }
  by rewrite quoted_quoted_field.
Qed.

End ReadBack.

(** X11. The lead list reads back.  In SEARCH mode with at least one
    map chunk, if no link holds a double quote, a comma or a line feed,
    a CSV reader gets from the exported text the header record and then,
    for each map chunk in order, the record of its name, its address and
    its link, whatever commas, quotes and line feeds the names and
    addresses hold; an undefined field reads back as the empty text. *)
Theorem lead_export_reads_back
    (now : jstring) (p : AnalysisResult.Props) (r : jstring) :
  AnalysisResult.result p = Some r -> r <> [] ->
  AnalysisResult.mode p = SEARCH -> Spec.map_chunks p <> [] ->
  Forall (fun m => Csv.plain (default [] (googleMapsUriString m)))
    (Spec.map_chunks p) ->
  exists csv,
    AnalysisResult.handleExportCSV now p = Some csv /\
    Csv.parse csv
    = Some ([lit "Business Name"; lit "Address"; lit "Google Maps Link"]
            :: map Csv.lead_fields (Spec.map_chunks p)).
Proof.
  intros Hr Hne Hm Hc Hu. eexists.
  split; [by apply (export_lead_text now p r)|].
  unfold Csv.parse. rewrite read_lead_header. by rewrite read_lead_rows.
Qed.

Lemma lead_export_reads_back_witness :
  exists csv,
    AnalysisResult.handleExportCSV (lit "2026-01-01T00:00:00.000Z")
      {| AnalysisResult.result := Some (lit "### Leads");
         AnalysisResult.groundingMetadata := Some Sample.citations;
         AnalysisResult.isLoading := false;
         AnalysisResult.error := None;
         AnalysisResult.mode := SEARCH;
         AnalysisResult.language := English |} = Some csv /\
    Csv.parse csv
    = Some [ [lit "Business Name"; lit "Address"; lit "Google Maps Link"];
             [lit "Joe's " ++ DQ ++ lit "Best" ++ DQ ++ lit " Pizza";
              lit "1 Main St, Austin"; []] ].
Proof.
  apply (lead_export_reads_back (lit "2026-01-01T00:00:00.000Z")
           {| AnalysisResult.result := Some (lit "### Leads");
              AnalysisResult.groundingMetadata := Some Sample.citations;
              AnalysisResult.isLoading := false;
              AnalysisResult.error := None;
              AnalysisResult.mode := SEARCH;
              AnalysisResult.language := English |}
           (lit "### Leads") eq_refl).
  - discriminate.
  - reflexivity.
  - discriminate.
  - vm_compute. repeat constructor.
Defined.

(** X12. The generic export reads back.  In every other case, if the
    timestamp holds no double quote, comma or line feed, a CSV reader
    gets from the exported text the header record and one record of the
    timestamp, the mode and the result text, whatever the result holds. *)
Theorem generic_export_reads_back
    (now : jstring) (p : AnalysisResult.Props) (r : jstring) :
  AnalysisResult.result p = Some r -> r <> [] ->
  ~ (AnalysisResult.mode p = SEARCH /\ Spec.map_chunks p <> []) ->
  Csv.plain now ->
  exists csv,
    AnalysisResult.handleExportCSV now p = Some csv /\
    Csv.parse csv
    = Some [ [lit "Date"; lit "Type"; lit "Analysis Content"];
             [now; AnalysisResult.mode_string (AnalysisResult.mode p); r] ].
Proof.
  intros Hr Hne Hn Hnow. eexists.
  split; [by apply (export_generic_text now p r)|].
  unfold Csv.parse. rewrite read_generic_header. cbn [app].
  rewrite read_plain_comma by done.
  rewrite read_plain_comma by apply plain_mode_string.
  by rewrite read_quoted_end.
Qed.

Lemma generic_export_reads_back_witness :
  exists csv,
    AnalysisResult.handleExportCSV (lit "2026-01-01T00:00:00.000Z")
      {| AnalysisResult.result :=
           Some (lit "Pitch: " ++ DQ ++ lit "Hi, Joe" ++ DQ ++ LF ++ lit "Bye");
         AnalysisResult.groundingMetadata := None;
         AnalysisResult.isLoading := false;
         AnalysisResult.error := None;
         AnalysisResult.mode := IMAGE;
         AnalysisResult.language := English |} = Some csv /\
    Csv.parse csv
    = Some [ [lit "Date"; lit "Type"; lit "Analysis Content"];
             [lit "2026-01-01T00:00:00.000Z"; lit "IMAGE";
              lit "Pitch: " ++ DQ ++ lit "Hi, Joe" ++ DQ ++ LF ++ lit "Bye"] ].
Proof.
  apply (generic_export_reads_back (lit "2026-01-01T00:00:00.000Z")
           {| AnalysisResult.result :=
                Some (lit "Pitch: " ++ DQ ++ lit "Hi, Joe" ++ DQ ++ LF
                      ++ lit "Bye");
              AnalysisResult.groundingMetadata := None;
              AnalysisResult.isLoading := false;
              AnalysisResult.error := None;
              AnalysisResult.mode := IMAGE;
              AnalysisResult.language := English |}
           _ eq_refl).
  - discriminate.
  - intros [Hm _]. discriminate Hm.
  - vm_compute. repeat constructor; discriminate.
Defined.

(** The link is written without quotes: a comma in it splits the record
    into four fields. *)
Example link_with_comma_adds_a_field :
  Csv.parse
    (Spec.lead_row {| title := Some (lit "Cafe"); address := None;
                      googleMapsUriString := Some (lit "https://maps/?q=1,2") |})
  = Some [[lit "Cafe"; []; lit "https://maps/?q=1"; lit "2"]].
Proof. reflexivity. Qed.

(** ** The list of identified locations *)

Lemma render_chunks_places (chunks : list GroundingChunk) :
  omap Shape.listed_place
    (map Panel.render_chunk
       (filter (fun chunk => is_Some (web chunk) \/ is_Some (maps chunk))
          chunks))
  = omap maps chunks.
Proof.
  induction chunks as [|chunk chunks IH]; [done|].
  destruct (maps chunk) as [m|] eqn:Hm.
  - rewrite filter_cons_True by (right; rewrite Hm; eauto).
    cbn [map omap list_omap]. unfold Panel.render_chunk at 1.
    rewrite Hm. simpl. by rewrite <- IH.
  - destruct (web chunk) as [w|] eqn:Hw.
    + rewrite filter_cons_True by (left; rewrite Hw; eauto).
      cbn [map omap list_omap]. unfold Panel.render_chunk at 1.
      rewrite Hm, Hw. simpl. rewrite ?Hm. exact IH.
    + rewrite filter_cons_False.
      * simpl. rewrite ?Hm. exact IH.
      * rewrite Hm, Hw. by intros [[? ?]|[? ?]].
Qed.

Lemma render_chunks_defined (chunks : list GroundingChunk) :
  Forall is_Some
    (map Panel.render_chunk
       (filter (fun chunk => is_Some (web chunk) \/ is_Some (maps chunk))
          chunks)).
Proof.
  induction chunks as [|chunk chunks IH]; [constructor|].
  destruct (maps chunk) as [m|] eqn:Hm.
  - rewrite filter_cons_True by (right; rewrite Hm; eauto).
    constructor; [|done]. unfold Panel.render_chunk. rewrite Hm. eauto.
  - destruct (web chunk) as [w|] eqn:Hw.
    + rewrite filter_cons_True by (left; rewrite Hw; eauto).
      constructor; [|done]. unfold Panel.render_chunk. rewrite Hm, Hw. eauto.
    + rewrite filter_cons_False; [done|].
      rewrite Hm, Hw. by intros [[? ?]|[? ?]].
Qed.

Lemma filter_nil_iff (chunks : list GroundingChunk) :
  filter (fun chunk => is_Some (web chunk) \/ is_Some (maps chunk)) chunks = []
  <-> Forall (fun chunk => web chunk = None /\ maps chunk = None) chunks.
Proof.
  induction chunks as [|chunk chunks IH]; [by split; [constructor|]|].
  destruct (decide (is_Some (web chunk) \/ is_Some (maps chunk))) as [H|H].
  - rewrite filter_cons_True by done. split; [done|].
    inversion 1 as [|? ? [Hw Hm]]; subst.
    rewrite Hw, Hm in H. by destruct H as [[? ?]|[? ?]].
  - rewrite filter_cons_False by done. rewrite IH. split.
    + intros Hall. constructor; [|done].
      destruct (web chunk), (maps chunk); try done; exfalso; apply H; eauto.
    + by inversion 1.
Qed.

(** X13. The panel lists the locations exactly when some grounding
    chunk has web or map data.  Every listed entry is an item (none is
    null), and the map places listed are, in order, the map chunks that
    the lead-list export writes one row for. *)
Theorem listed_locations (p : AnalysisResult.Props) :
  (Panel.renderGroundingChunks p = None <->
   Forall (fun chunk => web chunk = None /\ maps chunk = None)
     (Shape.chunks_of p)) /\
  (forall items,
     Panel.renderGroundingChunks p = Some items ->
     Forall is_Some items /\
     omap Shape.listed_place items = Spec.map_chunks p).
Proof.
  unfold Panel.renderGroundingChunks, Shape.chunks_of, Spec.map_chunks.
  destruct (AnalysisResult.groundingMetadata p) as [gm|]; simpl;
    [|by split; [split; [constructor|] |]].
  destruct (groundingChunks gm) as [chunks|]; simpl;
    [|by split; [split; [constructor|] |]].
  split.
  - rewrite <- filter_nil_iff. case_bool_decide as Hl; split; try done.
    + intros _. by apply length_zero_iff_nil.
    + intros Hnil. by rewrite Hnil in Hl.
  - intros items. case_bool_decide; [done|]. intros [= <-].
    split; [apply render_chunks_defined | apply render_chunks_places].
Qed.

Lemma listed_locations_witness :
  omap Shape.listed_place
    [ Some (Panel.MapItem Sample.place);
      Some (Panel.WebItem (Some (lit "https://example.org"))
              (Some (lit "https://example.org"))) ]
  = [Sample.place].
Proof.
  refine (proj2 (proj2 (listed_locations
            {| AnalysisResult.result := Some (lit "### Leads");
               AnalysisResult.groundingMetadata := Some Sample.citations;
               AnalysisResult.isLoading := false;
               AnalysisResult.error := None;
               AnalysisResult.mode := SEARCH;
               AnalysisResult.language := English |}) _ eq_refl)).
Defined.

(** ** The status message *)

Lemma steps_length (mode : AppMode) : length (Panel.steps mode) = 6%nat.
Proof. by destruct mode. Qed.

Lemma next_message_bound (mode : AppMode) (prev : nat) :
  (prev < 6)%nat -> (Panel.next_message mode prev < 6)%nat.
Proof.
  unfold Panel.next_message. rewrite steps_length. intros H.
  destruct (Nat.ltb_spec prev (6 - 1)); lia.
Qed.

Lemma ticks_from_zero (mode : AppMode) (n : nat) :
  Panel.messageIndex
    (fold_left Panel.beat (repeat Panel.Tick n)
       {| Panel.ticker_mode := mode; Panel.messageIndex := 0 |})
  = Nat.min n 5 /\
  Panel.ticker_mode
    (fold_left Panel.beat (repeat Panel.Tick n)
       {| Panel.ticker_mode := mode; Panel.messageIndex := 0 |}) = mode.
Proof.
  induction n as [|n [IHi IHm]]; [done|].
  replace (S n) with (n + 1)%nat by lia.
  rewrite repeat_app, fold_left_app. simpl.
  rewrite IHm, IHi. split; [|done].
  unfold Panel.next_message. rewrite steps_length.
  destruct (Nat.ltb_spec (Nat.min n 5) (6 - 1)); lia.
Qed.

(** X14. While the panel is loading, the status message is always
    defined: however the interval ticks and the mode changes, the
    message index stays below the number of messages; and after [n]
    ticks in one mode it is [n], capped at the last message. *)
Theorem status_message_defined (mode : AppMode) (beats : list Panel.Beat) :
  let t := fold_left Panel.beat beats
             {| Panel.ticker_mode := mode; Panel.messageIndex := 0 |} in
  (Panel.messageIndex t < 6)%nat /\
  is_Some (Panel.status_message t) /\
  (forall n,
     Panel.messageIndex
       (fold_left Panel.beat (repeat Panel.Tick n)
          {| Panel.ticker_mode := mode; Panel.messageIndex := 0 |})
     = Nat.min n 5).
Proof.
  intros t.
  assert (Panel.messageIndex t < 6)%nat as Hlt.
  { subst t.
    assert (forall t0, (Panel.messageIndex t0 < 6)%nat ->
              (Panel.messageIndex (fold_left Panel.beat beats t0) < 6)%nat)
      as Hall.
    { induction beats as [|b beats IH]; intros t0 H0; [done|].
      simpl. apply IH. destruct b; simpl; [by apply next_message_bound|lia]. }
    apply Hall. simpl. lia. }
  split; [done|]. split.
  - unfold Panel.status_message. apply lookup_lt_is_Some.
    by rewrite steps_length.
  - intros n. apply ticks_from_zero.
Qed.

(** ** Sharing the result *)

Section Share.

Import Panel.

Lemma pair_ind (P : jstring -> Prop) :
  P [] ->
  (forall c s, P s -> (forall d s', s = d :: s' -> P s') -> P (c :: s)) ->
  forall s, P s.
Proof.
  intros Hnil Hcons s.
  assert (P s /\ forall d s', s = d :: s' -> P s') as [H _]; [|done].
  induction s as [|c s [IH1 IH2]]; [by split|].
  split; [by apply Hcons|]. by intros d s' [= _ <-].
Qed.

Lemma unreserved_ascii (c : N) : unreserved c = true -> c < 128.
Proof.
  unfold unreserved.
  rewrite !orb_true_iff, !andb_true_iff, !N.leb_le, !N.eqb_eq. lia.
Qed.

Lemma unreserved_not_surrogate (c : N) :
  unreserved c = true ->
  is_low_surrogate c = false /\ is_high_surrogate c = false.
Proof.
  intros H%unreserved_ascii. unfold is_low_surrogate, is_high_surrogate.
  split; apply andb_false_iff; left; apply N.leb_gt; lia.
Qed.

Lemma encode_throws_URIError (s : jstring) (e : Thrown) :
  encodeURIComponent s = Throw e -> e = URIError.
Proof.
  revert e. induction s as [|c s IH1 IH2] using pair_ind; intros e; [done|].
  cbn [encodeURIComponent].
  destruct (unreserved c).
  { destruct (encodeURIComponent s) as [r|e0]; simpl; [done|].
    intros [= <-]. by apply IH1. }
  destruct (is_low_surrogate c); [by intros [= <-]|].
  destruct (is_high_surrogate c).
  - destruct s as [|d s']; [by intros [= <-]|].
    destruct (is_low_surrogate d); [|by intros [= <-]].
    specialize (IH2 d s' eq_refl).
    destruct (encodeURIComponent s') as [r|e0]; simpl; [done|].
    intros [= <-]. by apply IH2.
  - destruct (encodeURIComponent s) as [r|e0]; simpl; [done|].
    intros [= <-]. by apply IH1.
Qed.

Lemma encode_defined_iff (s : jstring) :
  (exists e, encodeURIComponent s = Ok e) <-> Shape.well_formed_utf16 s = true.
Proof.
  induction s as [|c s IH1 IH2] using pair_ind; [by split; [|eexists]|].
  cbn [encodeURIComponent Shape.well_formed_utf16].
  destruct (unreserved c) eqn:Hu.
  { destruct (unreserved_not_surrogate c Hu) as [-> ->]. rewrite <- IH1.
    destruct (encodeURIComponent s) as [r|e0]; simpl;
      split; intros [e He]; by eauto. }
  destruct (is_low_surrogate c); [by split; [intros [? ?]|]|].
  destruct (is_high_surrogate c).
  - destruct s as [|d s']; [by split; [intros [? ?]|]|].
    destruct (is_low_surrogate d); simpl; [|by split; [intros [? ?]|]].
    rewrite <- (IH2 d s' eq_refl).
    destruct (encodeURIComponent s') as [r|e0]; simpl;
      split; intros [e He]; by eauto.
  - rewrite <- IH1.
    destruct (encodeURIComponent s) as [r|e0]; simpl;
      split; intros [e He]; by eauto.
Qed.

(** Encoding a well-formed text and then another is encoding them
    together. *)
Lemma encode_app (a : jstring) :
  Shape.well_formed_utf16 a = true ->
  exists ea,
    encodeURIComponent a = Ok ea /\
    forall b, encodeURIComponent (a ++ b)
              = JS.bind (encodeURIComponent b) (fun eb => Ok (ea ++ eb)).
Proof.
  induction a as [|c a IH1 IH2] using pair_ind.
  { intros _. exists []. split; [done|]. intros b.
    cbn [app]. by destruct (encodeURIComponent b). }
  cbn [encodeURIComponent Shape.well_formed_utf16 app].
  destruct (unreserved c) eqn:Hu.
  { destruct (unreserved_not_surrogate c Hu) as [-> ->].
    intros (ea & -> & Hb)%IH1. eexists. split; [done|]. intros b.
    rewrite Hb. by destruct (encodeURIComponent b). }
  destruct (is_low_surrogate c); [done|].
  destruct (is_high_surrogate c).
  - destruct a as [|d a']; [done|]. cbn [app].
    destruct (is_low_surrogate d); [|done]. simpl.
    intros (ea & -> & Hb)%(IH2 d a' eq_refl).
    eexists. split; [done|]. intros b.
    rewrite Hb. destruct (encodeURIComponent b); simpl; [|done].
    by rewrite <- app_assoc.
  - intros (ea & -> & Hb)%IH1. eexists. split; [done|]. intros b.
    rewrite Hb. destruct (encodeURIComponent b); simpl; [|done].
    by rewrite <- app_assoc.
Qed.

Lemma in_range (P : N -> bool) (bound : nat) :
  forallb (fun n => P (N.of_nat n)) (seq 0 bound) = true ->
  forall c, c < N.of_nat bound -> P c = true.
Proof.
  intros Hall c Hc. rewrite forallb_forall in Hall.
  rewrite <- (N2Nat.id c). apply Hall. apply in_seq. lia.
Qed.

Lemma unreserved_safe (c : N) : unreserved c = true -> Shape.url_safe c.
Proof.
  intros Hu. pose proof (unreserved_ascii c Hu) as Hc. revert Hu.
  unfold Shape.url_safe.
  pose proof (in_range
    (fun c => implb (unreserved c) (existsb (N.eqb c) Shape.url_alphabet)) 128)
    as H.
  specialize (H ltac:(vm_compute; reflexivity) c Hc). simpl in H.
  intros Hu. by rewrite Hu in H.
Qed.

Lemma percent_safe (octet : N) :
  octet < 256 -> Forall Shape.url_safe (percent octet).
Proof.
  intros Ho.
  pose proof (in_range
    (fun o => forallb (fun c => existsb (N.eqb c) Shape.url_alphabet)
                (percent o)) 256) as H.
  specialize (H ltac:(vm_compute; reflexivity) octet Ho).
  rewrite forallb_forall in H. apply List.Forall_forall. exact H.
Qed.

Lemma utf8_octets (cp : N) : cp < 1114112 -> Forall (fun o => o < 256) (utf8 cp).
Proof.
  intros Hcp. unfold utf8.
  assert (forall a, a mod 64 < 64) as Hmod by (intros; by apply N.mod_lt).
  destruct (N.ltb_spec cp 128); [repeat constructor; lia|].
  destruct (N.ltb_spec cp 2048).
  { assert (cp / 64 < 32) by (apply N.Div0.div_lt_upper_bound; lia).
    pose proof (Hmod cp). repeat constructor; lia. }
  destruct (N.ltb_spec cp 65536).
  { assert (cp / 4096 < 16) by (apply N.Div0.div_lt_upper_bound; lia).
    pose proof (Hmod cp). pose proof (Hmod (cp / 64)).
    repeat constructor; lia. }
  assert (cp / 262144 < 5) by (apply N.Div0.div_lt_upper_bound; lia).
  pose proof (Hmod cp). pose proof (Hmod (cp / 64)).
  pose proof (Hmod (cp / 4096)). repeat constructor; lia.
Qed.

Lemma code_point_safe (cp : N) :
  cp < 1114112 -> Forall Shape.url_safe (flat_map percent (utf8 cp)).
Proof.
  intros Hcp. pose proof (utf8_octets cp Hcp) as Ho.
  induction Ho as [|o os Ho Hos IH]; [constructor|].
  cbn [flat_map]. apply Forall_app. split; [by apply percent_safe | exact IH].
Qed.

Lemma encode_safe (s e : jstring) :
  Shape.code_units s -> encodeURIComponent s = Ok e ->
  Forall Shape.url_safe e.
Proof.
  revert e. induction s as [|c s IH1 IH2] using pair_ind; intros e Hs.
  { intros [= <-]. constructor. }
  apply Forall_cons in Hs as [Hc Hs]. cbn [encodeURIComponent].
  destruct (unreserved c) eqn:Hu.
  { destruct (encodeURIComponent s) as [r|e0]; simpl; [|done].
    intros [= <-]. constructor; [by apply unreserved_safe | by apply IH1]. }
  destruct (is_low_surrogate c); [done|].
  destruct (is_high_surrogate c) eqn:Hh.
  - destruct s as [|d s']; [done|].
    apply Forall_cons in Hs as [Hd Hs'].
    destruct (is_low_surrogate d) eqn:Hl; [|done].
    destruct (encodeURIComponent s') as [r|e0] eqn:Hr; simpl; [|done].
    intros [= <-]. apply Forall_app. split; [|by apply (IH2 d s')].
    apply code_point_safe.
    unfold is_high_surrogate in Hh. unfold is_low_surrogate in Hl.
    apply andb_true_iff in Hh as [Hh1 Hh2]. apply andb_true_iff in Hl as [Hl1 Hl2].
    apply N.leb_le in Hh1, Hh2, Hl1, Hl2. lia.
  - destruct (encodeURIComponent s) as [r|e0]; simpl; [|done].
    intros [= <-]. apply Forall_app. split; [|by apply IH1].
    apply code_point_safe. lia.
Qed.

Lemma encode_share_header :
  Shape.well_formed_utf16 share_header = true /\
  encodeURIComponent share_header = Ok Shape.encoded_header.
Proof. split; vm_compute; reflexivity. Qed.

Lemma encode_share_text (r : jstring) :
  encodeURIComponent (share_header ++ r)
  = JS.bind (encodeURIComponent r)
      (fun q => Ok (Shape.encoded_header ++ q)).
Proof.
  destruct encode_share_header as [Hw He].
  destruct (encode_app share_header Hw) as (ea & Hea & Hb).
  rewrite Hb. rewrite He in Hea. by injection Hea as <-.
Qed.

End Share.

(** *** The encoded text reads back *)

Section ReadEncoded.

Import Panel Uri.

Lemma hex_pair (octet : N) :
  octet < 256 ->
  exists a b,
    hex_value (hex_digit (octet / 16)) = Some a /\
    hex_value (hex_digit (octet mod 16)) = Some b /\
    a * 16 + b = octet.
Proof.
  intros Ho.
  pose proof (in_range
    (fun o => match hex_value (hex_digit (o / 16)),
                    hex_value (hex_digit (o mod 16)) with
              | Some a, Some b => a * 16 + b =? o
              | _, _ => false
              end) 256) as H.
  specialize (H ltac:(vm_compute; reflexivity) octet Ho). simpl in H.
  destruct (hex_value (hex_digit (octet / 16))) as [a|]; [|done].
  destruct (hex_value (hex_digit (octet mod 16))) as [b|]; [|done].
  exists a, b. by apply N.eqb_eq in H.
Qed.

Lemma unpercent_octets (os : list N) (rest : jstring) (tail : list N) :
  Forall (fun o => o < 256) os ->
  unpercent rest = Some tail ->
  unpercent (flat_map percent os ++ rest) = Some (os ++ tail).
Proof.
  intros Hos Hrest. induction Hos as [|o os Ho Hos IH]; [done|].
  destruct (hex_pair o Ho) as (a & b & Ha & Hb & Hab).
  cbn [flat_map percent app unpercent N.eqb Pos.eqb].
  by rewrite Ha, Hb, IH, Hab.
Qed.

Lemma unpercent_unreserved (c : N) (rest : jstring) (tail : list N) :
  unreserved c = true ->
  unpercent rest = Some tail ->
  unpercent (c :: rest) = Some (c :: tail).
Proof.
  intros Hu Hrest. cbn [unpercent]. rewrite Hrest.
  pose proof (unreserved_ascii c Hu) as Hc.
  assert ((c =? 37) = false) as ->.
  { apply N.eqb_neq. intros ->. discriminate Hu. }
  by apply N.ltb_lt in Hc as ->.
Qed.

Lemma div64 (a : N) :
  exists q r, a / 64 = q /\ a mod 64 = r /\ a = 64 * q + r /\ r < 64.
Proof.
  exists (a / 64), (a mod 64). do 2 (split; [done|]).
  split; [by apply N.div_mod | by apply N.mod_lt].
Qed.

(** The octets of a code point, by the base-64 digits of the code
    point. *)
Lemma utf8_digits (cp : N) :
  exists q3 r2 r1 r0,
    cp = ((q3 * 64 + r2) * 64 + r1) * 64 + r0 /\
    r2 < 64 /\ r1 < 64 /\ r0 < 64 /\
    utf8 cp =
      if cp <? 128 then [cp]
      else if cp <? 2048 then [192 + ((q3 * 64 + r2) * 64 + r1); 128 + r0]
      else if cp <? 65536 then [224 + (q3 * 64 + r2); 128 + r1; 128 + r0]
      else [240 + q3; 128 + r2; 128 + r1; 128 + r0].
Proof.
  unfold utf8.
  replace (cp / 4096) with (cp / 64 / 64)
    by (rewrite N.Div0.div_div; reflexivity).
  replace (cp / 262144) with (cp / 64 / 64 / 64)
    by (rewrite !N.Div0.div_div; reflexivity).
  destruct (div64 cp) as (a1 & r0 & -> & -> & H0 & Hr0).
  destruct (div64 a1) as (a2 & r1 & -> & -> & H1 & Hr1).
  destruct (div64 a2) as (q3 & r2 & -> & -> & H2 & Hr2).
  exists q3, r2, r1, r0.
  split; [lia|]. do 3 (split; [assumption|]).
  replace ((q3 * 64 + r2) * 64 + r1) with a1 by lia.
  replace (q3 * 64 + r2) with a2 by lia. done.
Qed.

Lemma utf8_decode_utf8 (cp : N) (rest cps : list N) :
  cp < 1114112 ->
  utf8_decode rest = Some cps ->
  utf8_decode (utf8 cp ++ rest) = Some (cp :: cps).
Proof.
  intros Hcp Hrest.
  destruct (utf8_digits cp) as (q3 & r2 & r1 & r0 & Hd & H2 & H1 & H0 & ->).
  unfold continuation.
  destruct (N.ltb_spec cp 128) as [Hlt|Hge1].
  { cbn [app utf8_decode]. rewrite Hrest.
    by apply N.ltb_lt in Hlt as ->. }
  destruct (N.ltb_spec cp 2048) as [Hlt|Hge2].
  { cbn [app utf8_decode]. rewrite Hrest. unfold continuation.
    repeat match goal with
           | |- context [?a <? ?b] => destruct (N.ltb_spec a b); try lia
           | |- context [?a <=? ?b] => destruct (N.leb_spec a b); try lia
           end.
    cbn [andb]. do 2 f_equal. lia. }
  destruct (N.ltb_spec cp 65536) as [Hlt|Hge3].
  { cbn [app utf8_decode]. rewrite Hrest. unfold continuation.
    repeat match goal with
           | |- context [?a <? ?b] => destruct (N.ltb_spec a b); try lia
           | |- context [?a <=? ?b] => destruct (N.leb_spec a b); try lia
           end.
    cbn [andb]. do 2 f_equal. lia. }
  cbn [app utf8_decode]. rewrite Hrest. unfold continuation.
  repeat match goal with
         | |- context [?a <? ?b] => destruct (N.ltb_spec a b); try lia
         | |- context [?a <=? ?b] => destruct (N.leb_spec a b); try lia
         end.
  cbn [andb]. do 2 f_equal. lia.
Qed.

Lemma units_pair (c d : N) :
  is_high_surrogate c = true -> is_low_surrogate d = true ->
  units ((c - 55296) * 1024 + (d - 56320) + 65536) = [c; d].
Proof.
  unfold is_high_surrogate, is_low_surrogate.
  intros [Hc1 Hc2]%andb_true_iff [Hd1 Hd2]%andb_true_iff.
  apply N.leb_le in Hc1, Hc2, Hd1, Hd2. unfold units.
  destruct (N.ltb_spec ((c - 55296) * 1024 + (d - 56320) + 65536) 65536);
    [lia|].
  replace ((c - 55296) * 1024 + (d - 56320) + 65536 - 65536)
    with (1024 * (c - 55296) + (d - 56320)) by lia.
  rewrite <- (N.div_unique (1024 * (c - 55296) + (d - 56320)) 1024
                (c - 55296) (d - 56320)) by lia.
  rewrite <- (N.mod_unique (1024 * (c - 55296) + (d - 56320)) 1024
                (c - 55296) (d - 56320)) by lia.
  f_equal; [lia | f_equal; lia].
Qed.

Lemma units_single (c : N) : c < 65536 -> units c = [c].
Proof. intros Hc. unfold units. by apply N.ltb_lt in Hc as ->. Qed.

Lemma encode_reads_back (r e : jstring) :
  Shape.code_units r -> encodeURIComponent r = Ok e ->
  exists os cps,
    unpercent e = Some os /\ utf8_decode os = Some cps /\
    flat_map units cps = r.
Proof.
  revert e. induction r as [|c r IH1 IH2] using pair_ind; intros e Hr.
  { intros [= <-]. by exists [], []. }
  apply Forall_cons in Hr as [Hc Hr]. cbn [encodeURIComponent].
  destruct (unreserved c) eqn:Hu.
  { destruct (encodeURIComponent r) as [q|e0]; simpl; [|done].
    intros [= <-]. destruct (IH1 q Hr eq_refl) as (os & cps & Ho & Hd & Hf).
    exists (c :: os), (c :: cps).
    split; [by apply unpercent_unreserved|].
    pose proof (unreserved_ascii c Hu) as Hlt. split.
    - cbn [utf8_decode]. rewrite Hd. by apply N.ltb_lt in Hlt as ->.
    - cbn [flat_map]. by rewrite units_single, Hf. }
  destruct (is_low_surrogate c); [done|].
  destruct (is_high_surrogate c) eqn:Hh.
  - destruct r as [|d r']; [done|].
    apply Forall_cons in Hr as [Hd Hr'].
    destruct (is_low_surrogate d) eqn:Hl; [|done].
    destruct (encodeURIComponent r') as [q|e0] eqn:Hq; simpl; [|done].
    intros [= <-].
    destruct (IH2 d r' eq_refl q Hr' Hq) as (os & cps & Ho & Hdec & Hf).
    assert ((c - 55296) * 1024 + (d - 56320) + 65536 < 1114112) as Hcp.
    { unfold is_high_surrogate in Hh. unfold is_low_surrogate in Hl.
      apply andb_true_iff in Hh as [Hh1 Hh2].
      apply andb_true_iff in Hl as [Hl1 Hl2].
      apply N.leb_le in Hh1, Hh2, Hl1, Hl2. lia. }
    eexists _, _. split; [by apply unpercent_octets; [apply utf8_octets|]|].
    split; [by apply utf8_decode_utf8|].
    cbn [flat_map]. by rewrite units_pair, Hf.
  - destruct (encodeURIComponent r) as [q|e0]; simpl; [|done].
    intros [= <-]. destruct (IH1 q Hr eq_refl) as (os & cps & Ho & Hd & Hf).
    assert (c < 1114112) as Hcp by lia.
    eexists _, _. split; [by apply unpercent_octets; [apply utf8_octets|]|].
    split; [by apply utf8_decode_utf8|].
    cbn [flat_map]. by rewrite units_single, Hf.
Qed.

Lemma decode_encode (r e : jstring) :
  Shape.code_units r -> encodeURIComponent r = Ok e -> decode e = Some r.
Proof.
  intros Hr He. destruct (encode_reads_back r e Hr He)
    as (os & cps & Ho & Hd & Hf).
  unfold decode. by rewrite Ho, Hd, Hf.
Qed.

End ReadEncoded.

(** X15. The share link is safe to open and carries the result.  For a
    stored result that is well-formed UTF-16, the handler opens the
    address made of the chat host, the number, the text parameter, the
    encoded header of the message and the encoding of the result.  The
    encoding is made of unreserved characters and percent-encoded
    octets only, so nothing in the result can end or extend the text
    parameter, and decoding it gives the result back. *)
Theorem share_link_is_safe
    (number : jstring) (p : AnalysisResult.Props) (r : jstring) :
  AnalysisResult.result p = Some r -> r <> [] ->
  Shape.code_units r -> Shape.well_formed_utf16 r = true ->
  exists q,
    Panel.encodeURIComponent r = Ok q /\
    Panel.handleWhatsAppShare number p
    = Some (Ok (lit "https://wa.me/" ++ number ++ lit "?text="
                ++ Shape.encoded_header ++ q)) /\
    Forall Shape.url_safe q /\
    Uri.decode q = Some r /\
    Uri.decode Shape.encoded_header
    = Some (lit "*New Lead Diagnosis via LeadLens AI* " ++ Panel.rocket
            ++ LF ++ LF).
Proof.
  intros Hr Hne Hu Hw.
  apply encode_defined_iff in Hw as [q Hq]. exists q.
  split; [done|]. split.
  - unfold Panel.handleWhatsAppShare. rewrite Hr.
    destruct r as [|c r]; [done|].
    by rewrite encode_share_text, Hq.
  - split; [by apply (encode_safe r)|].
    split; [by apply decode_encode | vm_compute; reflexivity].
Qed.

Lemma share_link_is_safe_witness :
  exists q,
    Panel.encodeURIComponent (lit "a&b=c #1 " ++ Panel.rocket) = Ok q /\
    Panel.handleWhatsAppShare (lit "351912281028")
      {| AnalysisResult.result := Some (lit "a&b=c #1 " ++ Panel.rocket);
         AnalysisResult.groundingMetadata := None;
         AnalysisResult.isLoading := false;
         AnalysisResult.error := None;
         AnalysisResult.mode := SELF_AUDIT;
         AnalysisResult.language := English |}
    = Some (Ok (lit "https://wa.me/" ++ lit "351912281028" ++ lit "?text="
                ++ Shape.encoded_header ++ q)) /\
    Forall Shape.url_safe q /\
    Uri.decode q = Some (lit "a&b=c #1 " ++ Panel.rocket) /\
    Uri.decode Shape.encoded_header
    = Some (lit "*New Lead Diagnosis via LeadLens AI* " ++ Panel.rocket
            ++ LF ++ LF).
Proof.
  apply (share_link_is_safe (lit "351912281028")
           {| AnalysisResult.result := Some (lit "a&b=c #1 " ++ Panel.rocket);
              AnalysisResult.groundingMetadata := None;
              AnalysisResult.isLoading := false;
              AnalysisResult.error := None;
              AnalysisResult.mode := SELF_AUDIT;
              AnalysisResult.language := English |}
           (lit "a&b=c #1 " ++ Panel.rocket) eq_refl).
  - discriminate.
  - unfold Shape.code_units.
    repeat (apply List.Forall_cons; [reflexivity|]). apply List.Forall_nil.
  - reflexivity.
Defined.

(** The encoding of the witness, written out. *)
Example share_text_encoded :
  Panel.encodeURIComponent (lit "a&b=c #1 " ++ Panel.rocket)
  = Ok (lit "a%26b%3Dc%20%231%20%F0%9F%9A%80").
Proof. vm_compute. reflexivity. Qed.

(** X16. A stored result with a surrogate that is not half of a pair
    makes the share handler fail: the encoding raises a [URIError],
    which the handler does not catch, and no address is opened. *)
Theorem share_fails_on_lone_surrogate
    (number : jstring) (p : AnalysisResult.Props) (r : jstring) :
  AnalysisResult.result p = Some r ->
  Shape.well_formed_utf16 r = false ->
  Panel.handleWhatsAppShare number p = Some (Throw Panel.URIError).
Proof.
  intros Hr Hw. unfold Panel.handleWhatsAppShare. rewrite Hr.
  destruct r as [|c r]; [done|].
  rewrite encode_share_text.
  destruct (Panel.encodeURIComponent (c :: r)) as [q|e] eqn:Hq.
  - assert (Shape.well_formed_utf16 (c :: r) = true) as Hok
      by (apply encode_defined_iff; eauto).
    congruence.
  - simpl. by rewrite (encode_throws_URIError _ _ Hq).
Qed.

Lemma share_fails_on_lone_surrogate_witness :
  Panel.handleWhatsAppShare (lit "351912281028")
    {| AnalysisResult.result := Some (lit "cut " ++ [55357]);
       AnalysisResult.groundingMetadata := None;
       AnalysisResult.isLoading := false;
       AnalysisResult.error := None;
       AnalysisResult.mode := IMAGE;
       AnalysisResult.language := English |}
  = Some (Throw Panel.URIError).
Proof.
  exact (share_fails_on_lone_surrogate (lit "351912281028")
           {| AnalysisResult.result := Some (lit "cut " ++ [55357]);
              AnalysisResult.groundingMetadata := None;
              AnalysisResult.isLoading := false;
              AnalysisResult.error := None;
              AnalysisResult.mode := IMAGE;
              AnalysisResult.language := English |}
           (lit "cut " ++ [55357]) eq_refl eq_refl).
Defined.

(** ** A request and the form it came from *)

Section InFlight.

Variable API_KEY : option jstring.

Lemma built_from_inputs (s s' : App.State) (c : App.Call) :
  Shape.request_inputs s' = Shape.request_inputs s ->
  Shape.built_from s c -> Shape.built_from s' c.
Proof.
  unfold Shape.request_inputs. intros [= Hi Hn Ht Hl Hlang].
  destruct c; simpl; rewrite ?Hi, ?Hn, ?Ht, ?Hl, ?Hlang; done.
Qed.

Lemma handler_built (h : Spec.Handler) (s s' : App.State) c k :
  Spec.handler h s = App.Await s' c k -> Shape.built_from s' c.
Proof.
  destruct h; simpl.
  - unfold App.handleAnalyzeImage.
    destruct (App.selectedImage s) as [img|] eqn:Hi; [|done].
    destruct (_ || _); [done|]. intros [= <- <- _]. simpl.
    exists img. by rewrite Hi.
  - unfold App.handleSearchLeads. destruct (is_empty _); [done|].
    by intros [= <- <- _].
  - unfold App.handleSelfAudit. destruct (is_empty _); [done|].
    by intros [= <- <- _].
Qed.

Lemma on_event_built (s s' : App.State) ev c k :
  App.on_event API_KEY s ev = App.Await s' c k -> Shape.built_from s' c.
Proof.
  intros H. destruct ev; simpl in H; unfold App.deliver in H;
    repeat match type of H with
           | (if ?b then _ else _) = _ => destruct b; try discriminate
           end; try discriminate.
  - exact (handler_built Spec.AnalyzeImage _ _ _ _ H).
  - exact (handler_built Spec.SearchLeads _ _ _ _ H).
  - exact (handler_built Spec.SearchLeads _ _ _ _ H).
  - exact (handler_built Spec.SelfAudit _ _ _ _ H).
Qed.

Lemma in_flight_built_step (ss : App.Session) (e : App.Event) :
  Shape.steady ss ->
  Forall (fun p => Shape.built_from (App.app ss) (App.call p))
    (App.in_flight ss) ->
  Forall (fun p => Shape.built_from (App.app (App.step API_KEY ss e))
                     (App.call p))
    (App.in_flight (App.step API_KEY ss e)).
Proof.
  intros (_ & Hbusy & Hone & _) Hbuilt.
  destruct e as [ev|i reader ai]; simpl.
  - destruct (App.isAnalyzing (App.app ss)) eqn:Hl.
    + destruct (loading_freezes API_KEY (App.app ss) ev Hl)
        as (s' & -> & Hin & _). simpl.
      eapply Forall_impl; [exact Hbuilt|].
      intros p Hp. by apply (built_from_inputs (App.app ss)).
    + assert (App.in_flight ss = []) as Hnil.
      { destruct (App.in_flight ss) as [|p [|q l]]; simpl in *; [done| |lia].
        destruct Hbusy as [_ Hb]. by specialize (Hb eq_refl). }
      destruct (App.on_event API_KEY (App.app ss) ev) as [s'|s' c k] eqn:He;
        simpl; rewrite Hnil; [constructor|].
      repeat constructor. simpl. by apply (on_event_built _ _ _ _ _ He).
  - destruct (App.in_flight ss !! i) as [p|] eqn:Hp; [|done].
    destruct (App.in_flight ss) as [|p0 [|p1 l]]; simpl in *; [done| |lia].
    destruct i; [|done]. constructor.
Qed.

Lemma in_flight_built_run (es : list App.Event) (ss : App.Session) :
  Shape.steady ss ->
  Forall (fun p => Shape.built_from (App.app ss) (App.call p))
    (App.in_flight ss) ->
  Forall (fun p => Shape.built_from (App.app (App.run API_KEY ss es))
                     (App.call p))
    (App.in_flight (App.run API_KEY ss es)).
Proof.
  revert ss. induction es as [|e es IH]; intros ss Hs Hb; simpl; [done|].
  apply IH; [by apply steady_step | by apply in_flight_built_step].
Qed.

Lemma settle_outcome (ss : App.Session) (p : App.Pending)
    (reader : Service.FileReader) (ai : Service.GenAI) :
  Shape.steady ss -> App.in_flight ss = [p] ->
  App.in_flight (App.step API_KEY ss (App.Settle 0 reader ai)) = [] /\
  AnalysisResult.render
    (result_props (App.app (App.step API_KEY ss (App.Settle 0 reader ai))))
  = Shape.outcome_view (App.perform reader ai (App.call p)).
Proof.
  intros (_ & _ & _ & Hres) Hp. rewrite Hp in Hres. apply Forall_inv in Hres.
  unfold App.step. rewrite Hp. simpl. split; [done|].
  unfold AnalysisResult.render, result_props. simpl. rewrite Hres.
  destruct (perform_outcome reader ai (App.call p))
    as [(r & -> & Hr)|(m & -> & Hm & _)]; simpl.
  - by destruct (Service.text r).
  - by destruct m.
Qed.

End InFlight.

(** X17. When the request in flight settles, nothing is in flight any
    more and the panel shows its outcome: the result view with the
    returned text, or the error view with the message of the thrown
    error. *)
Theorem settled_request_is_shown
    (API_KEY : option jstring) (es : list App.Event) (p : App.Pending)
    (reader : Service.FileReader) (ai : Service.GenAI) :
  let ss := App.run API_KEY App.start es in
  let ss' := App.step API_KEY ss (App.Settle 0 reader ai) in
  App.in_flight ss = [p] ->
  App.in_flight ss' = [] /\
  AnalysisResult.render (result_props (App.app ss'))
  = Shape.outcome_view (App.perform reader ai (App.call p)).
Proof.
  intros ss ss' Hp. subst ss'.
  pose proof (steady_run API_KEY es App.start steady_start) as Hs.
  fold ss in Hs. clearbody ss. by apply settle_outcome.
Qed.

Lemma settled_request_is_shown_witness :
  AnalysisResult.render
    (result_props
       (App.app
          (App.step None
             (App.run None App.start
                [ App.UI (App.ClickMode SEARCH);
                  App.UI (App.ChangeSearchQuery (lit "Bakeries"));
                  App.UI (App.KeyDownSearch App.Enter) ])
             (App.Settle 0 Sample.reads Sample.quota_exceeded))))
  = AnalysisResult.ErrorView (lit "Search failed: 429 quota exceeded").
Proof.
  exact (proj2 (settled_request_is_shown None
                  [ App.UI (App.ClickMode SEARCH);
                    App.UI (App.ChangeSearchQuery (lit "Bakeries"));
                    App.UI (App.KeyDownSearch App.Enter) ]
                  _ Sample.reads Sample.quota_exceeded eq_refl)).
Defined.

(** X18. In every state a session can reach, the request in flight
    agrees with the form: an image request carries the file of the
    selected image and the trimmed business name, and every request
    carries the pitch tone, pitch length and language the form still
    shows. *)
Theorem in_flight_request_matches_form
    (API_KEY : option jstring) (es : list App.Event) (p : App.Pending) :
  let ss := App.run API_KEY App.start es in
  In p (App.in_flight ss) ->
  Shape.built_from (App.app ss) (App.call p).
Proof.
  intros ss Hp.
  pose proof (in_flight_built_run API_KEY es App.start steady_start
                ltac:(constructor)) as Hb.
  fold ss in Hb. rewrite List.Forall_forall in Hb. by apply Hb.
Qed.

Lemma in_flight_request_matches_form_witness :
  Shape.built_from
    (App.app
       (App.run None App.start
          [ App.UI (App.ClickMode SEARCH);
            App.UI (App.ChangePitchTone PAIN_FOCUSED);
            App.UI (App.ChangeSearchQuery (lit "Bakeries"));
            App.UI (App.KeyDownSearch App.Enter);
            App.UI (App.ChangePitchTone TONE_STANDARD) ]))
    (App.searchBusinessLeads (lit "Bakeries") PAIN_FOCUSED LENGTH_STANDARD
       English).
Proof.
  refine (in_flight_request_matches_form None
            [ App.UI (App.ClickMode SEARCH);
              App.UI (App.ChangePitchTone PAIN_FOCUSED);
              App.UI (App.ChangeSearchQuery (lit "Bakeries"));
              App.UI (App.KeyDownSearch App.Enter);
              App.UI (App.ChangePitchTone TONE_STANDARD) ]
            {| App.call := App.searchBusinessLeads (lit "Bakeries")
                             PAIN_FOCUSED LENGTH_STANDARD English;
               App.resume := _ |} _).
  left. reflexivity.
Defined.

(** ** The panel in a reachable state *)

(** X10. In every state a session can reach, the panel follows the null
    tests alone: the error view when the error is not null, else the
    result view when the result is not null.  Whenever a result is
    stored it is not empty, so the export handler does not return early:
    it writes the lead list in SEARCH mode with a map chunk and the
    generic record otherwise.  The share handler does not return early
    either: it opens the link that carries the encoded result when the
    result is well-formed UTF-16, and fails with the [URIError] of the
    encoding otherwise. *)
Theorem reachable_panel (API_KEY : option jstring) (es : list App.Event) :
  let s := App.app (App.run API_KEY App.start es) in
  AnalysisResult.render (result_props s) = Shape.display (App.analysisState s)
  /\ (forall r now number,
        result (App.analysisState s) = Some r ->
        r <> [] /\
        (AnalysisResult.mode (result_props s) = SEARCH /\
         Spec.map_chunks (result_props s) <> [] ->
         AnalysisResult.handleExportCSV now (result_props s)
         = Some (AnalysisResult.lead_header
                 ++ concat (map Spec.lead_row
                              (Spec.map_chunks (result_props s))))) /\
        (~ (AnalysisResult.mode (result_props s) = SEARCH /\
            Spec.map_chunks (result_props s) <> []) ->
         AnalysisResult.handleExportCSV now (result_props s)
         = Some (AnalysisResult.generic_header
                 ++ Spec.generic_row now (AnalysisResult.mode (result_props s))
                      r)) /\
        (Shape.well_formed_utf16 r = true ->
         exists q,
           Panel.encodeURIComponent r = Ok q /\
           Panel.handleWhatsAppShare number (result_props s)
           = Some (Ok (lit "https://wa.me/" ++ number ++ lit "?text="
                       ++ Shape.encoded_header ++ q))) /\
        (Shape.well_formed_utf16 r = false ->
         Panel.handleWhatsAppShare number (result_props s)
         = Some (Throw Panel.URIError))).
Proof.
  intros s. pose proof (session_state_shape_aux API_KEY es) as Hs.
  fold s in Hs. clearbody s.
  split; [by apply well_shaped_display|].
  intros r now number Hr.
  pose proof (stored_result_nonempty s r Hs Hr) as Hne.
  assert (AnalysisResult.result (result_props s) = Some r) as Hp by exact Hr.
  split; [done|]. split; [|split; [|split]].
  - intros [Hm Hc]. by apply (export_lead_text now _ r).
  - intros Hn. by rewrite (export_generic_text now _ r Hp Hne Hn).
  - intros [q Hq]%encode_defined_iff. exists q. split; [done|].
    unfold Panel.handleWhatsAppShare. rewrite Hp.
    destruct r as [|c r]; [done|]. by rewrite encode_share_text, Hq.
  - intros Hw. unfold Panel.handleWhatsAppShare. rewrite Hp.
    destruct r as [|c r]; [done|]. rewrite encode_share_text.
    destruct (Panel.encodeURIComponent (c :: r)) as [q|e] eqn:Hq.
    + assert (Shape.well_formed_utf16 (c :: r) = true) as Hok
        by (apply encode_defined_iff; eauto).
      congruence.
    + simpl. by rewrite (encode_throws_URIError _ _ Hq).
Qed.

Lemma reachable_panel_witness :
  let s := App.app (App.run None App.start
                      [ App.UI (App.ClickMode SEARCH);
                        App.UI (App.ChangeSearchQuery (lit "Bakeries"));
                        App.UI (App.KeyDownSearch App.Enter);
                        App.Settle 0 Sample.reads Sample.answers ]) in
  exists q,
    Panel.encodeURIComponent (lit "### Leads") = Ok q /\
    Panel.handleWhatsAppShare (lit "351912281028") (result_props s)
    = Some (Ok (lit "https://wa.me/" ++ lit "351912281028" ++ lit "?text="
                ++ Shape.encoded_header ++ q)).
Proof.
  intros s.
  destruct (proj2 (reachable_panel None
                     [ App.UI (App.ClickMode SEARCH);
                       App.UI (App.ChangeSearchQuery (lit "Bakeries"));
                       App.UI (App.KeyDownSearch App.Enter);
                       App.Settle 0 Sample.reads Sample.answers ])
              (lit "### Leads") (lit "2026-01-01T00:00:00.000Z")
              (lit "351912281028") eq_refl)
    as (_ & _ & _ & Hshare & _).
  exact (Hshare eq_refl).
Defined.
